(** * conda_build.config: settings merge, directory layout and the
      fixed-length build prefix

    A shallow embedding of [src/conda_build/config.py].  The [Config]
    object is modelled by its attribute dictionary, keyword arguments by
    a finite map, dynamically typed Python values by the inductive type
    [pyval], and the methods that mutate the object or raise by a small
    state-and-exception monad. *)

From Stdlib Require Import ZArith Lia Ascii String List Bool.
From stdpp Require Import gmap strings pretty.

Local Open Scope string_scope.
Local Open Scope Z_scope.

(** ** Python strings *)

Module pystr.

(** [len(s)] *)
Definition len (s : string) : Z := Z.of_nat (String.length s).

(** [s[:n]] for a non-negative [n]. *)
Fixpoint take (n : nat) (s : string) : string :=
  match n, s with
  | O, _ => ""
  | S _, EmptyString => ""
  | S n', String c s' => String c (take n' s')
  end.

(** [s[:k]]; a negative bound counts from the end of the string. *)
Definition slice_to (s : string) (k : Z) : string :=
  if 0 <=? k then take (Z.to_nat k) s
  else take (String.length s - Z.to_nat (- k)) s.

Fixpoint repeat (n : nat) (s : string) : string :=
  match n with
  | O => ""
  | S n' => s +:+ repeat n' s
  end.

(** [k * s]; a count of zero or less gives the empty string. *)
Definition mul (k : Z) (s : string) : string := repeat (Z.to_nat k) s.

(** [max(a, b)] on strings: the first argument is kept unless the
    second is strictly greater in the lexicographic order. *)
Definition max (a b : string) : string :=
  if String.ltb a b then b else a.

(** [s.startswith(t)] and [s.endswith(t)] for a one-character [t]. *)
Definition startswith (s : string) (c : ascii) : bool :=
  match s with
  | String c' _ => Ascii.eqb c' c
  | EmptyString => false
  end.

Fixpoint endswith (s : string) (c : ascii) : bool :=
  match s with
  | EmptyString => false
  | String c' EmptyString => Ascii.eqb c' c
  | String _ s' => endswith s' c
  end.

(** [s.replace(c, '')] for a one-character [c]. *)
Fixpoint remove (c : ascii) (s : string) : string :=
  match s with
  | EmptyString => ""
  | String c' s' =>
      if Ascii.eqb c' c then remove c s' else String c' (remove c s')
  end.

(** [all(p(c) for c in s)] and [any(p(c) for c in s)] *)
Fixpoint all (p : ascii -> bool) (s : string) : bool :=
  match s with
  | EmptyString => true
  | String c s' => p c && all p s'
  end.

Fixpoint any (p : ascii -> bool) (s : string) : bool :=
  match s with
  | EmptyString => false
  | String c s' => p c || any p s'
  end.

(** [s.upper()] on ASCII letters. *)
Definition upper_char (c : ascii) : ascii :=
  let n := N_of_ascii c in
  if ((97 <=? n) && (n <=? 122))%N then ascii_of_N (n - 32) else c.

Fixpoint upper (s : string) : string :=
  match s with
  | EmptyString => ""
  | String c s' => String (upper_char c) (upper s')
  end.

End pystr.

(** [math.ceil(a / b)] under [from __future__ import division], for a
    positive divisor.  The quotient is a float in the source; it is exact
    for every operand below 2^53 in absolute value, which covers all path
    lengths. *)
Definition ceil_div (a b : Z) : Z := - ((- a) / b).

(** ** The fixed-length placeholder path (body of [Config.build_prefix]) *)

Definition placeholder_path (stub : string) (prefix_length : Z) : string :=
  let placeholder_length := prefix_length - pystr.len stub in
  let placeholder := "_placehold" in
  let repeats := ceil_div placeholder_length (pystr.len placeholder) + 1 in
  let placeholder :=
    pystr.slice_to (stub +:+ pystr.mul repeats placeholder) prefix_length in
  pystr.max stub placeholder.

(** ** Python values, truth and exceptions *)

#[warnings="-register-all"] Inductive pyval : Type :=
| VNone
| VBool (b : bool)
| VInt (z : Z)
| VStr (s : string)
| VList (l : list pyval)
| VTuple (l : list pyval).

(** [bool(v)], the test used by [if v:], [not v] and [v or w]. *)
Definition truthy (v : pyval) : bool :=
  match v with
  | VNone => false
  | VBool b => b
  | VInt z => negb (z =? 0)
  | VStr s => negb (String.eqb s "")
  | VList l => match l with [] => false | _ :: _ => true end
  | VTuple l => match l with [] => false | _ :: _ => true end
  end.

(** Neither a list nor a tuple. *)
Definition is_scalar (v : pyval) : bool :=
  match v with
  | VList _ | VTuple _ => false
  | _ => true
  end.

Inductive exn : Type := ValueError | AttributeError | TypeError.

(** ** [int(s)] on a string

    Optional surrounding white space, an optional sign, then one or more
    decimal digits: the literals accepted by Python 2.7 and 3.5, the
    interpreters this module is written for (digit grouping with [_] and
    non-ASCII digits are not covered). *)

Module pyint.

Definition is_digit (c : ascii) : bool :=
  let n := N_of_ascii c in ((48 <=? n) && (n <=? 57))%N.

Definition is_space (c : ascii) : bool :=
  let n := N_of_ascii c in (((9 <=? n) && (n <=? 13)) || (n =? 32))%N.

Definition is_sign (c : ascii) : bool :=
  Ascii.eqb c "+" || Ascii.eqb c "-".

Definition digit (c : ascii) : Z := Z.of_N (N_of_ascii c) - 48.

Fixpoint digits (acc : Z) (s : string) : option Z :=
  match s with
  | EmptyString => Some acc
  | String c s' =>
      if is_digit c then digits (10 * acc + digit c) s' else None
  end.

Definition number (s : string) : option Z :=
  match s with
  | EmptyString => None
  | _ => digits 0 s
  end.

Fixpoint lstrip (s : string) : string :=
  match s with
  | EmptyString => ""
  | String c s' => if is_space c then lstrip s' else s
  end.

Fixpoint rstrip (s : string) : string :=
  match s with
  | EmptyString => ""
  | String c s' =>
      match rstrip s' with
      | EmptyString => if is_space c then "" else String c ""
      | r => String c r
      end
  end.

Definition of_string (s : string) : option Z :=
  match rstrip (lstrip s) with
  | String c d =>
      if Ascii.eqb c "+" then number d
      else if Ascii.eqb c "-" then option_map Z.opp (number d)
      else number (String c d)
  | EmptyString => None
  end.

End pyint.

(** ** [os.path] on a POSIX platform *)

Module posixpath.

Definition isabs (p : string) : bool := pystr.startswith p "/".

(** [join(a, b)] *)
Definition join (a b : string) : string :=
  if pystr.startswith b "/" then b
  else if String.eqb a "" || pystr.endswith a "/" then a +:+ b
  else a +:+ "/" +:+ b.

(** Splits at the first ["/"]: the text before it, and the rest with
    the ["/"] kept. *)
Fixpoint break_slash (s : string) : string * string :=
  match s with
  | EmptyString => ("", "")
  | String c s' =>
      if Ascii.eqb c "/" then ("", s)
      else let (u, r) := break_slash s' in (String c u, r)
  end.

(** [s.rstrip('/')] *)
Fixpoint rstrip_slash (s : string) : string :=
  match s with
  | EmptyString => ""
  | String c s' =>
      match rstrip_slash s' with
      | EmptyString => if Ascii.eqb c "/" then "" else String c ""
      | r => String c r
      end
  end.

(** [expanduser(path)]: [home] is [$HOME] when set, else the home of
    the current user in the password database; [pw_nam] looks up the
    home of a named user. *)
Definition expanduser (home : string) (pw_nam : string -> option string)
           (path : string) : string :=
  match path with
  | String "~" rest =>
      let (user, tail) := break_slash rest in
      let userhome :=
        if String.eqb user "" then Some home else pw_nam user in
      match userhome with
      | None => path
      | Some h =>
          let r := rstrip_slash h +:+ tail in
          if String.eqb r "" then "/" else r
      end
  | _ => path
  end.

(** [s.split('/')] *)
Fixpoint split_slash (s : string) : list string :=
  match s with
  | EmptyString => [""]
  | String c s' =>
      if Ascii.eqb c "/" then "" :: split_slash s'
      else match split_slash s' with
           | h :: t => String c h :: t
           | [] => [String c ""]
           end
  end.

(** One round of the loop of [normpath]; [new_comps] is kept with its
    last component first. *)
Definition norm_step (initial_slashes : nat) (new_comps : list string)
           (comp : string) : list string :=
  if String.eqb comp "" || String.eqb comp "." then new_comps
  else if negb (String.eqb comp "..")
          || (Nat.eqb initial_slashes 0
              && match new_comps with [] => true | _ => false end)
          || match new_comps with
             | last :: _ => String.eqb last ".."
             | [] => false
             end
       then comp :: new_comps
       else match new_comps with
            | _ :: rest => rest
            | [] => []
            end.

(** ['/'.join(comps)] *)
Fixpoint join_slash (comps : list string) : string :=
  match comps with
  | [] => ""
  | [c] => c
  | c :: rest => c +:+ "/" +:+ join_slash rest
  end.

Definition normpath (path : string) : string :=
  if String.eqb path "" then "."
  else
    let initial_slashes :=
      match path with
      | String "/" (String "/" (String "/" _)) => 1%nat
      | String "/" (String "/" _) => 2%nat
      | String "/" _ => 1%nat
      | _ => 0%nat
      end in
    let comps :=
      rev (fold_left (norm_step initial_slashes) (split_slash path) []) in
    let path :=
      pystr.repeat initial_slashes "/" +:+ join_slash comps in
    if String.eqb path "" then "." else path.

Definition abspath (cwd : string) (path : string) : string :=
  normpath (if isabs path then path else join cwd path).

End posixpath.

(** ** What the module reads from its collaborators

    The process environment, the interpreter version and the values that
    [conda.config] (imported as [cc]) supplies. *)

Record World : Type := {
  environ : gmap string string;       (* os.environ *)
  getcwd : string;                    (* os.getcwd() *)
  pw_dir : string;                    (* home of the current user *)
  pw_nam : string -> option string;   (* home of a named user *)
  version_info : nat * nat;           (* sys.version_info.major, .minor *)
  cc_rc_root_dir : option string;     (* cc.rc.get('conda-build', {}).get('root-dir') *)
  cc_root_writable : bool;            (* cc.root_writable *)
  cc_root_dir : string;               (* cc.root_dir *)
  cc_subdir : string;                 (* cc.subdir *)
  cc_binstar_upload : pyval           (* cc.binstar_upload *)
}.

Definition getenv (w : World) (var : string) : option string :=
  environ w !! var.

Definition expanduser (w : World) (path : string) : string :=
  posixpath.expanduser (default (pw_dir w) (getenv w "HOME")) (pw_nam w) path.

Definition abspath (w : World) (path : string) : string :=
  posixpath.abspath (getcwd w) path.

Abbreviation join := posixpath.join.

(** ** The [Config] object and the monad of its methods

    A [Config] is its attribute dictionary.  A method takes the object
    and returns it, possibly mutated, with either the exception raised
    or the value returned; attributes assigned before an exception stay
    assigned. *)

Abbreviation Config := (gmap string pyval).
Abbreviation Kwargs := (gmap string pyval).

Definition M (A : Type) : Type := Config -> Config * (exn + A).

Definition ret {A : Type} (a : A) : M A := fun self => (self, inr a).

Definition raise {A : Type} (e : exn) : M A := fun self => (self, inl e).

Definition bind {A B : Type} (m : M A) (f : A -> M B) : M B :=
  fun self =>
    match m self with
    | (self', inr a) => f a self'
    | (self', inl e) => (self', inl e)
    end.

Notation "x <- m ;; k" := (bind m (fun x => k))
  (at level 100, m at next level, right associativity).
Notation "m ;;; k" := (bind m (fun _ => k))
  (at level 100, right associativity).

Definition lift {A : Type} (r : exn + A) : M A := fun self => (self, r).

Definition hasattr (attr : string) : M bool :=
  fun self => (self, inr (bool_decide (is_Some (self !! attr)))).

Definition getattr (attr : string) : M pyval :=
  fun self =>
    match self !! attr with
    | Some v => (self, inr v)
    | None => (self, inl AttributeError)
    end.

Definition setattr (attr : string) (v : pyval) : M unit :=
  fun self => (<[attr := v]> self, inr tt).

Fixpoint for_each {A : Type} (l : list A) (body : A -> M unit) : M unit :=
  match l with
  | [] => ret tt
  | x :: l' => body x ;;; for_each l' body
  end.

(** [kwargs.get(key, default)] *)
Definition kwargs_get (kwargs : Kwargs) (key : string) (dflt : pyval) : pyval :=
  default dflt (kwargs !! key).

Definition as_str (v : pyval) : exn + string :=
  match v with
  | VStr s => inr s
  | _ => inl TypeError
  end.

(** Booleans are integers in Python. *)
Definition as_int (v : pyval) : exn + Z :=
  match v with
  | VInt z => inr z
  | VBool b => inr (if b then 1 else 0)
  | _ => inl TypeError
  end.

(** [v.replace('.', '')]: only strings have the method. *)
Definition replace_dot (v : pyval) : exn + string :=
  match v with
  | VStr s => inr (pystr.remove "." s)
  | _ => inl AttributeError
  end.

Definition py_int (s : string) : exn + Z :=
  match pyint.of_string s with
  | Some z => inr z
  | None => inl ValueError
  end.

(** ** [Config.set_keys] *)

Definition env_var (lang : string) : string :=
  let lang := if String.eqb lang "python" then "py" else lang in
  "CONDA_" +:+ pystr.upper lang.

(** The nested function [env(lang, default)]. *)
Definition env (w : World) (kwargs : Kwargs) (lang : string)
           (dflt : string) : pyval :=
  let version := kwargs_get kwargs lang VNone in
  if negb (truthy version) then
    let var := env_var lang in
    match getenv w var with
    | Some s => if truthy (VStr s) then VStr s else VStr dflt
    | None => VStr dflt
    end
  else
    match version with
    | VList [x] => x
    | _ => version
    end.

(** ["%s%s" % (sys.version_info.major, sys.version_info.minor)] *)
Definition python_default (w : World) : string :=
  pretty (fst (version_info w)) +:+ pretty (snd (version_info w)).

(** The [values] list of [ConfigSetting(name, default)] pairs. *)
Definition values (w : World) : list (string * pyval) :=
  [ ("activate", VBool true);
    ("anaconda_upload", cc_binstar_upload w);
    ("channel_urls", VTuple []);
    ("dirty", VBool false);
    ("include_recipe", VBool true);
    ("keep_old_work", VBool false);
    ("noarch", VBool false);
    ("no_download_source", VBool false);
    ("override_channels", VBool false);
    ("skip_existing", VBool false);
    ("token", VNone);
    ("user", VNone);
    ("verbose", VBool false) ].

Definition _set_attribute_from_kwargs (kwargs : Kwargs) (attr : string)
           (dflt : pyval) : M unit :=
  has <- hasattr attr ;;
  current <- (if has : bool then getattr attr else ret dflt) ;;
  setattr attr (kwargs_get kwargs attr current).

Definition set_keys (w : World) (kwargs : Kwargs) : M unit :=
  setattr "CONDA_PERL" (env w kwargs "perl" "5.18.2") ;;;
  setattr "CONDA_LUA" (env w kwargs "lua" "5.2") ;;;
  setattr "CONDA_R" (env w kwargs "r" "3.2.2") ;;;
  s <- lift (replace_dot (env w kwargs "python" (python_default w))) ;;
  py <- lift (py_int s) ;;
  setattr "CONDA_PY" (VInt py) ;;;
  setattr "CONDA_NPY"
    (kwargs_get kwargs "numpy"
       (from_option VStr VNone (getenv w "CONDA_NPY"))) ;;;
  npy <- getattr "CONDA_NPY" ;;
  (if truthy npy then
     s <- lift (replace_dot npy) ;;
     n <- lift (py_int s) ;;
     setattr "CONDA_NPY" (if n =? 0 then VNone else VInt n)
   else ret tt) ;;;
  setattr "_build_id" (kwargs_get kwargs "build_id" (VStr "")) ;;;
  setattr "_prefix_length" (kwargs_get kwargs "prefix_length" (VInt 80)) ;;;
  setattr "_croot" (kwargs_get kwargs "croot" VNone) ;;;
  setattr "use_long_build_prefix"
    (kwargs_get kwargs "use_long_build_prefix" (VBool false)) ;;;
  for_each (values w)
    (fun value => _set_attribute_from_kwargs kwargs (fst value) (snd value)).

(** ** The stages of [set_keys]

    Names for the object as it stands between the statements of
    [set_keys], used to say what has been assigned when it raises. *)

(** The object after the three plain version settings are assigned. *)
Definition after_versions (w : World) (kwargs : Kwargs) (self : Config) : Config :=
  <["CONDA_R" := env w kwargs "r" "3.2.2"]>
    (<["CONDA_LUA" := env w kwargs "lua" "5.2"]>
       (<["CONDA_PERL" := env w kwargs "perl" "5.18.2"]> self)).

(** The unconditional tail of [set_keys], from [_build_id] on. *)
Definition after_identity (kwargs : Kwargs) (self : Config) : Config :=
  <["use_long_build_prefix" :=
      kwargs_get kwargs "use_long_build_prefix" (VBool false)]>
    (<["_croot" := kwargs_get kwargs "croot" VNone]>
       (<["_prefix_length" := kwargs_get kwargs "prefix_length" (VInt 80)]>
          (<["_build_id" := kwargs_get kwargs "build_id" (VStr "")]> self))).

Definition settings_loop (w : World) (kwargs : Kwargs) (self : Config) : Config * (exn + unit) :=
  for_each (values w)
    (fun v => _set_attribute_from_kwargs kwargs (fst v) (snd v))
    (after_identity kwargs self).

Definition numpy_given (w : World) (kwargs : Kwargs) : pyval :=
  kwargs_get kwargs "numpy" (from_option VStr VNone (getenv w "CONDA_NPY")).

(** The constructor [Config.__init__]: [set_keys] run on a fresh object. *)
Definition Config_init (w : World) (kwargs : Kwargs) : Config * (exn + unit) :=
  set_keys w kwargs ∅.

(** ** Properties *)

(** [croot] getter and setter. *)
Definition croot (w : World) : M pyval :=
  c <- getattr "_croot" ;;
  (if negb (truthy c) then
     let _bld_root_env := getenv w "CONDA_BLD_PATH" in
     let _bld_root_rc := cc_rc_root_dir w in
     if truthy (from_option VStr VNone _bld_root_env) then
       setattr "_croot"
         (VStr (abspath w (expanduser w (default "" _bld_root_env))))
     else if truthy (from_option VStr VNone _bld_root_rc) then
       setattr "_croot"
         (VStr (abspath w (expanduser w (default "" _bld_root_rc))))
     else if cc_root_writable w then
       setattr "_croot" (VStr (join (cc_root_dir w) "conda-bld"))
     else
       setattr "_croot" (VStr (abspath w (expanduser w "~/conda-bld")))
   else ret tt) ;;;
  getattr "_croot".

Definition set_croot (v : pyval) : M unit := setattr "_croot" v.

Definition build_id : M pyval := getattr "_build_id".

Definition set_build_id (v : pyval) : M unit := setattr "_build_id" v.

Definition prefix_length : M pyval := getattr "_prefix_length".

Definition set_prefix_length (v : pyval) : M unit :=
  setattr "_prefix_length" v.

(** [join(a, b)] on values: both have to be strings. *)
Definition path_join (a b : pyval) : M string :=
  a <- lift (as_str a) ;;
  b <- lift (as_str b) ;;
  ret (join a b).

Definition build_folder (w : World) : M string :=
  c <- croot w ;;
  b <- build_id ;;
  path_join c b.

Definition PY3K : M pyval :=
  py <- getattr "CONDA_PY" ;;
  py <- lift (as_int py) ;;
  ret (VInt (if 30 <=? py then 1 else 0)).

Definition build_prefix (w : World) : M string :=
  folder <- build_folder w ;;
  let stub := join folder "_build_env" in
  length <- prefix_length ;;
  length <- lift (as_int length) ;;
  ret (placeholder_path stub length).

Definition test_prefix (w : World) : M string :=
  folder <- build_folder w ;; ret (join folder "_test_env").

Definition work_dir (w : World) : M string :=
  folder <- build_folder w ;; ret (join folder "work").

Definition test_dir (w : World) : M string :=
  folder <- build_folder w ;; ret (join folder "test_tmp").

Definition bldpkgs_dir (w : World) : M string :=
  noarch <- getattr "noarch" ;;
  if truthy noarch then
    c <- croot w ;; path_join c (VStr "noarch")
  else
    c <- croot w ;; path_join c (VStr (cc_subdir w)).

Definition bldpkgs_dirs (w : World) : M (string * string) :=
  c <- croot w ;;
  d1 <- path_join c (VStr (cc_subdir w)) ;;
  c <- croot w ;;
  d2 <- path_join c (VStr "noarch") ;;
  ret (d1, d2).

(** ** [get_or_merge_config]

    [config] is [None] or an existing object (an object is always
    truthy); the result is that object after the call, with the
    exception raised if any. *)
Definition get_or_merge_config (w : World) (config : option Config)
           (kwargs : Kwargs) : Config * (exn + unit) :=
  let created :=
    match config with
    | None => Config_init w ∅
    | Some c => (c, inr tt)
    end in
  match created with
  | (c, inl e) => (c, inl e)
  | (c, inr _) =>
      if Nat.eqb (size kwargs) 0 then (c, inr tt) else set_keys w kwargs c
  end.

(** ** The remaining properties of [Config] *)

Definition use_MSVC2015 : M pyval :=
  py <- getattr "CONDA_PY" ;;
  py <- lift (as_int py) ;;
  ret (VBool (35 <=? py)).

Definition get_conda_py : M pyval := getattr "CONDA_PY".

Definition info_dir (w : World) : M string :=
  prefix <- build_prefix w ;; ret (join prefix "info").

Definition meta_dir (w : World) : M string :=
  prefix <- build_prefix w ;; ret (join prefix "conda-meta").

Definition broken_dir (w : World) : M string :=
  c <- croot w ;; path_join c (VStr "broken").

Definition src_cache (w : World) : M string :=
  c <- croot w ;; path_join c (VStr "src_cache").

Definition git_cache (w : World) : M string :=
  c <- croot w ;; path_join c (VStr "git_cache").

Definition hg_cache (w : World) : M string :=
  c <- croot w ;; path_join c (VStr "hg_cache").

Definition svn_cache (w : World) : M string :=
  c <- croot w ;; path_join c (VStr "svn_cache").

(** ** Interpreter binaries

    [sys.platform], the packages [conda.install.linked] reports for a
    prefix, and [os.path.join] as a win32 interpreter has it (ntpath's,
    which this development does not model; every other platform joins
    with [posixpath.join]). *)

Record Platform : Type := {
  sys_platform : string;
  linked : string -> list string;
  ntpath_join : string -> string -> string
}.

Definition is_win32 (p : Platform) : bool :=
  String.eqb (sys_platform p) "win32".

(** [pkg.split('-')[0]]: the text before the first dash. *)
Fixpoint before_dash (pkg : string) : string :=
  match pkg with
  | EmptyString => ""
  | String c rest =>
      if Ascii.eqb c "-" then "" else String c (before_dash rest)
  end.

Definition _get_python (p : Platform) (prefix : string) : string :=
  if is_win32 p then
    let packages := linked p prefix in
    let packages_names := map before_dash packages in
    if existsb (String.eqb "debug") packages_names
    then ntpath_join p prefix "python_d.exe"
    else ntpath_join p prefix "python.exe"
  else join prefix "bin/python".

Definition _get_perl (p : Platform) (prefix : string) : string :=
  if is_win32 p then ntpath_join p prefix "perl.exe"
  else join prefix "bin/perl".

(** [_get_lua] indexes [CONDA_LUA], which adds [IndexError] to the
    exceptions of the other methods. *)
Inductive exn_ext : Type :=
| Raised (e : exn)
| IndexError.

(** [v[0]] *)
Definition subscript0 (v : pyval) : exn_ext + pyval :=
  match v with
  | VStr (String c _) => inr (VStr (String c ""))
  | VStr EmptyString => inl IndexError
  | VList (x :: _) => inr x
  | VList [] => inl IndexError
  | VTuple (x :: _) => inr x
  | VTuple [] => inl IndexError
  | _ => inl (Raised TypeError)
  end.

(** ["2" == v] *)
Definition equals_two (v : pyval) : bool :=
  match v with
  | VStr s => String.eqb "2" s
  | _ => false
  end.

Definition _get_lua (p : Platform) (prefix : string) (self : Config)
  : exn_ext + string :=
  match self !! "CONDA_LUA" with
  | None => inl (Raised AttributeError)
  | Some lua =>
      match subscript0 lua with
      | inl e => inl e
      | inr first =>
          let binary_name := if equals_two first then "luajit" else "lua" in
          if is_win32 p then inr (ntpath_join p prefix (binary_name +:+ ".exe"))
          else inr (join prefix ("bin/" +:+ binary_name))
      end
  end.

Definition build_python (w : World) (p : Platform) : M string :=
  prefix <- build_prefix w ;; ret (_get_python p prefix).

Definition test_python (w : World) (p : Platform) : M string :=
  prefix <- test_prefix w ;; ret (_get_python p prefix).

Definition build_perl (w : World) (p : Platform) : M string :=
  prefix <- build_prefix w ;; ret (_get_perl p prefix).

Definition test_perl (w : World) (p : Platform) : M string :=
  prefix <- test_prefix w ;; ret (_get_perl p prefix).

Definition build_lua (w : World) (p : Platform) (self : Config)
  : Config * (exn_ext + string) :=
  match build_prefix w self with
  | (self', inl e) => (self', inl (Raised e))
  | (self', inr prefix) => (self', _get_lua p prefix self')
  end.

Definition test_lua (w : World) (p : Platform) (self : Config)
  : Config * (exn_ext + string) :=
  match test_prefix w self with
  | (self', inl e) => (self', inl (Raised e))
  | (self', inr prefix) => (self', _get_lua p prefix self')
  end.

(** ** A concrete world for examples *)

Definition posix_world : World :=
  {| environ := ∅;
     getcwd := "/home/u/recipes";
     pw_dir := "/home/u";
     pw_nam := fun _ => None;
     version_info := (3, 5)%nat;
     cc_rc_root_dir := None;
     cc_root_writable := false;
     cc_root_dir := "/opt/conda";
     cc_subdir := "linux-64";
     cc_binstar_upload := VBool false |}.

(** ** Definitions used in the statements below

    Lists of names, and the behaviour the specification words for the
    version settings, the normalized python version and the croot
    fallbacks, written after the specification so that the code can be
    compared with them. *)

(** The thirteen settings driven by the [values] list. *)
Definition setting_names : list string :=
  [ "activate"; "anaconda_upload"; "channel_urls"; "dirty";
    "include_recipe"; "keep_old_work"; "noarch"; "no_download_source";
    "override_channels"; "skip_existing"; "token"; "user"; "verbose" ].

(** The attributes assigned by the version stages of [set_keys]. *)
Definition version_attrs : list string :=
  [ "CONDA_PERL"; "CONDA_LUA"; "CONDA_R"; "CONDA_PY"; "CONDA_NPY" ].

(** What the version settings are specified to resolve to: the explicit
    override when it is truthy (a list of one element standing for that
    element), else the environment variable when it is set and not
    empty, else the built-in default. *)
Definition override_value (v : pyval) : pyval :=
  match v with
  | VList [x] => x
  | _ => v
  end.

Definition version_resolution (override : option pyval)
           (variable : option string) (dflt : string) : pyval :=
  let fallback :=
    match variable with
    | Some s => if String.eqb s "" then VStr dflt else VStr s
    | None => VStr dflt
    end in
  match override with
  | Some v => if truthy v then override_value v else fallback
  | None => fallback
  end.

(** The settings resolved by the nested function [env]. *)
Definition env_langs : list string := [ "perl"; "lua"; "r"; "python" ].

(** A version text: digits and dots, with at least one digit. *)
Definition version_text (s : string) : bool :=
  pystr.all (fun c => pyint.is_digit c || Ascii.eqb c ".") s
  && pystr.any pyint.is_digit s.

(** The integer whose decimal digits are the digits of [s], in order;
    every other character is passed over. *)
Fixpoint concat_digits_from (acc : Z) (s : string) : Z :=
  match s with
  | EmptyString => acc
  | String c s' =>
      concat_digits_from
        (if pyint.is_digit c then 10 * acc + pyint.digit c else acc) s'
  end.

Definition concat_digits (s : string) : Z := concat_digits_from 0 s.

Definition is_ascii (c : ascii) : bool := (N_of_ascii c <? 128)%N.

(** A printable ASCII character that is not a digit, a sign or an
    underscore (later interpreters accept underscores between digits, so
    they are left aside). *)
Definition stray_char (c : ascii) : bool :=
  let n := N_of_ascii c in
  ((33 <=? n) && (n <=? 126))%N
  && negb (pyint.is_digit c || pyint.is_sign c || Ascii.eqb c "_").

(** A text that cannot be normalized: once the dots are removed it is
    an ASCII text without any digit, or it has a stray character. *)
Definition malformed (s : string) : bool :=
  let t := pystr.remove "." s in
  (pystr.all is_ascii t && negb (pystr.any pyint.is_digit t))
  || pystr.any stray_char t.

(** The fallback chain of [croot] below the explicit value: the build
    path variable, the [root-dir] setting, the install root when
    writable, the home directory. *)
Definition croot_chain (w : World) : string :=
  match getenv w "CONDA_BLD_PATH" with
  | Some (String c e) => abspath w (expanduser w (String c e))
  | _ =>
      match cc_rc_root_dir w with
      | Some (String c r) => abspath w (expanduser w (String c r))
      | _ =>
          if cc_root_writable w then join (cc_root_dir w) "conda-bld"
          else abspath w (expanduser w "~/conda-bld")
      end
  end.

(** A first merge that sets [build_id], as a later stage of a build does. *)
Definition kwargs_build_id : Kwargs := {[ "build_id" := VStr "foo-1.0-123456" ]}.

Definition config_with_build_id : Config :=
  fst (Config_init posix_world kwargs_build_id).

(** ** What [set_keys] reads and writes *)

(** The attributes assigned between the version stages and the loop. *)
Definition identity_attrs : list string :=
  [ "_build_id"; "_prefix_length"; "_croot"; "use_long_build_prefix" ].

(** Every attribute [set_keys] assigns. *)
Definition assigned_attrs : list string :=
  version_attrs ++ identity_attrs ++ setting_names.

(** Every key [set_keys] looks up in the mapping. *)
Definition recognized_keys : list string :=
  env_langs
  ++ [ "numpy"; "build_id"; "prefix_length"; "croot";
       "use_long_build_prefix" ]
  ++ setting_names.

(** * Properties of the model *)

(** ** Worked examples *)

Example normpath_dots :
  posixpath.normpath "/home/u/./a/../conda-bld//x/" = "/home/u/conda-bld/x".
Proof. reflexivity. Qed.

Example normpath_relative : posixpath.normpath "../a/.." = "..".
Proof. reflexivity. Qed.

Example abspath_relative :
  posixpath.abspath "/home/u/recipes" "../bld" = "/home/u/bld".
Proof. reflexivity. Qed.

Example join_empty_component : posixpath.join "/tmp/bld" "" = "/tmp/bld/".
Proof. reflexivity. Qed.

Example int_of_version : pyint.of_string (pystr.remove "." "3.10") = Some 310.
Proof. reflexivity. Qed.

Example int_of_letters : pyint.of_string (pystr.remove "." "3.5rc1") = None.
Proof. reflexivity. Qed.

Example croot_home_fallback :
  snd (croot posix_world (fst (Config_init posix_world ∅)))
  = inr (VStr "/home/u/conda-bld").
Proof. vm_compute. reflexivity. Qed.

(** ** String lemmas *)

Section string_facts.

Lemma append_cons (c : ascii) (s t : string) :
  String c s +:+ t = String c (s +:+ t).
Proof. reflexivity. Qed.

Lemma append_empty_l (t : string) : "" +:+ t = t.
Proof. reflexivity. Qed.

Lemma length_append (s t : string) :
  String.length (s +:+ t) = (String.length s + String.length t)%nat.
Proof.
  induction s as [|c s IH]; [reflexivity |].
  rewrite append_cons. simpl. now rewrite IH.
Qed.

Lemma length_repeat (n : nat) (s : string) :
  String.length (pystr.repeat n s) = (n * String.length s)%nat.
Proof.
  induction n as [|n IH]; [reflexivity |].
  change (pystr.repeat (S n) s) with (s +:+ pystr.repeat n s).
  rewrite length_append, IH. lia.
Qed.

Lemma length_take (n : nat) (s : string) :
  String.length (pystr.take n s) = Nat.min n (String.length s).
Proof.
  revert s; induction n as [|n IH]; intros [|c s]; simpl; auto.
Qed.

Lemma take_append_le (n : nat) (s t : string) :
  (n <= String.length s)%nat -> pystr.take n (s +:+ t) = pystr.take n s.
Proof.
  revert s; induction n as [|n IH]; intros [|c s] H; simpl in *;
    try reflexivity; try lia.
  rewrite ?append_cons. simpl. f_equal. apply IH. lia.
Qed.

Lemma take_append_ge (n : nat) (s t : string) :
  (String.length s <= n)%nat ->
  pystr.take n (s +:+ t) = s +:+ pystr.take (n - String.length s) t.
Proof.
  revert n; induction s as [|c s IH]; intros n H; simpl in *.
  - now rewrite append_empty_l, Nat.sub_0_r.
  - destruct n as [|n]; [lia |].
    rewrite !append_cons. simpl. f_equal. apply IH. lia.
Qed.

Lemma take_all (n : nat) (s : string) :
  (String.length s <= n)%nat -> pystr.take n s = s.
Proof.
  revert s; induction n as [|n IH]; intros [|c s] H; simpl in *;
    try reflexivity; try lia.
  f_equal. apply IH. lia.
Qed.

Lemma ascii_compare_refl (c : ascii) : Ascii.compare c c = Eq.
Proof. apply N.compare_refl. Qed.

(** A string is strictly below each of its proper extensions. *)
Lemma ltb_proper_extension (s t : string) :
  t <> "" -> String.ltb s (s +:+ t) = true.
Proof.
  intros Ht. unfold String.ltb.
  induction s as [|c s IH].
  - rewrite append_empty_l. destruct t; [congruence | reflexivity].
  - rewrite append_cons. simpl. now rewrite ascii_compare_refl.
Qed.

(** A string is never strictly below one of its prefixes. *)
Lemma ltb_take (n : nat) (s : string) :
  String.ltb s (pystr.take n s) = false.
Proof.
  unfold String.ltb.
  revert s; induction n as [|n IH]; intros [|c s]; simpl; try reflexivity.
  rewrite ascii_compare_refl. apply IH.
Qed.

Lemma take_nonempty (n : nat) (s : string) :
  (0 < n)%nat -> s <> "" -> pystr.take n s <> "".
Proof. destruct n, s; simpl; intros; congruence || lia. Qed.

End string_facts.

(** C1. For every stub and every target length [L >= 1] the placeholder
    algorithm of [build_prefix] returns a string of length exactly [L]
    when the stub is shorter than [L], returns the stub itself when the
    stub has length [L] or more, and never returns anything shorter than
    the stub. *)
Theorem placeholder_path_length (stub : string) (L : Z) :
  1 <= L ->
  (pystr.len stub < L -> pystr.len (placeholder_path stub L) = L) /\
  (L <= pystr.len stub -> placeholder_path stub L = stub) /\
  pystr.len stub <= pystr.len (placeholder_path stub L).
Proof.
  intros HL.
  assert (Hshort : pystr.len stub < L ->
                   pystr.len (placeholder_path stub L) = L).
  { intros Hlt. unfold placeholder_path, pystr.len in *.
    change (Z.of_nat (String.length "_placehold")) with 10.
    set (r := ceil_div (L - Z.of_nat (String.length stub)) 10 + 1).
    assert (Hr : L - Z.of_nat (String.length stub) + 10 <= 10 * r).
    { unfold r, ceil_div.
      pose proof (Z.mul_div_le (- (L - Z.of_nat (String.length stub))) 10).
      lia. }
    unfold pystr.slice_to, pystr.mul.
    replace (0 <=? L) with true by (symmetry; apply Z.leb_le; lia).
    rewrite take_append_ge by lia.
    assert (Hpad : pystr.take (Z.to_nat L - String.length stub)
                     (pystr.repeat (Z.to_nat r) "_placehold") <> "").
    { apply take_nonempty; [lia |].
      intros E. apply (f_equal String.length) in E.
      rewrite length_repeat in E. simpl in E. lia. }
    unfold pystr.max. rewrite ltb_proper_extension by exact Hpad.
    rewrite length_append, length_take, length_repeat. simpl String.length.
    lia. }
  assert (Hlong : L <= pystr.len stub -> placeholder_path stub L = stub).
  { intros Hge. unfold placeholder_path, pystr.len in *.
    unfold pystr.slice_to.
    replace (0 <=? L) with true by (symmetry; apply Z.leb_le; lia).
    rewrite take_append_le by lia.
    unfold pystr.max. now rewrite ltb_take. }
  split; [exact Hshort | split; [exact Hlong |]].
  destruct (Z_lt_le_dec (pystr.len stub) L) as [Hlt | Hge].
  - rewrite (Hshort Hlt). lia.
  - rewrite (Hlong Hge). lia.
Qed.

Lemma placeholder_path_length_witness :
  1 <= 80 /\
  (pystr.len "/tmp/bld/foo-1.0-123456/_build_env" < 80 ->
   pystr.len (placeholder_path "/tmp/bld/foo-1.0-123456/_build_env" 80) = 80)
  /\ (80 <= pystr.len "/tmp/bld/foo-1.0-123456/_build_env" ->
      placeholder_path "/tmp/bld/foo-1.0-123456/_build_env" 80
      = "/tmp/bld/foo-1.0-123456/_build_env")
  /\ pystr.len "/tmp/bld/foo-1.0-123456/_build_env"
     <= pystr.len (placeholder_path "/tmp/bld/foo-1.0-123456/_build_env" 80).
Proof.
  split; [lia |].
  apply (placeholder_path_length "/tmp/bld/foo-1.0-123456/_build_env" 80).
  lia.
Defined.

(** ** Running [set_keys] *)

Section set_keys_facts.

Variable w : World.
Variable kwargs : Kwargs.

(** The effect of the final loop on the object. *)
Lemma set_attribute_from_kwargs_run (attr : string) (dflt : pyval)
      (self : Config) :
  _set_attribute_from_kwargs kwargs attr dflt self
  = (<[attr := kwargs_get kwargs attr (default dflt (self !! attr))]> self,
     inr tt).
Proof.
  unfold _set_attribute_from_kwargs, bind, hasattr, getattr, setattr, ret.
  destruct (self !! attr) as [v|] eqn:E; simpl.
  - now rewrite E.
  - reflexivity.
Qed.

Lemma for_each_settings_ok (vs : list (string * pyval)) (self : Config) :
  snd (for_each vs
         (fun v => _set_attribute_from_kwargs kwargs (fst v) (snd v)) self)
  = inr tt.
Proof.
  revert self; induction vs as [|[a d] vs IH]; intros self; [reflexivity |].
  simpl. unfold bind. rewrite set_attribute_from_kwargs_run. apply IH.
Qed.

Lemma for_each_settings_other (vs : list (string * pyval)) (self : Config)
      (name : string) :
  name ∉ vs.*1 ->
  fst (for_each vs
         (fun v => _set_attribute_from_kwargs kwargs (fst v) (snd v)) self)
    !! name = self !! name.
Proof.
  revert self; induction vs as [|[a d] vs IH]; intros self Hn; [reflexivity |].
  simpl in *. unfold bind. rewrite set_attribute_from_kwargs_run.
  apply not_elem_of_cons in Hn as [Hne Hn].
  rewrite IH by exact Hn. apply lookup_insert_ne. congruence.
Qed.

Lemma for_each_settings_lookup (vs : list (string * pyval)) (self : Config)
      (name : string) (dflt : pyval) :
  NoDup vs.*1 -> (name, dflt) ∈ vs ->
  fst (for_each vs
         (fun v => _set_attribute_from_kwargs kwargs (fst v) (snd v)) self)
    !! name
  = Some (kwargs_get kwargs name (default dflt (self !! name))).
Proof.
  revert self; induction vs as [|[a d] vs IH]; intros self Hnd Hin.
  - inversion Hin.
  - simpl in *. unfold bind. rewrite set_attribute_from_kwargs_run.
    apply NoDup_cons in Hnd as [Ha Hnd].
    apply elem_of_cons in Hin as [Heq | Hin].
    + injection Heq as -> ->.
      rewrite for_each_settings_other by exact Ha.
      apply lookup_insert_eq.
    + assert (a <> name).
      { intros ->. apply Ha. apply list_elem_of_fmap.
        now exists (name, dflt). }
      rewrite IH by assumption.
      now rewrite lookup_insert_ne.
Qed.

(** [set_keys] stage by stage: where it can raise and what it has
    assigned by then. *)
Lemma set_keys_run (self : Config) :
  set_keys w kwargs self =
  match replace_dot (env w kwargs "python" (python_default w)) with
  | inl e => (after_versions w kwargs self, inl e)
  | inr s =>
      match py_int s with
      | inl e => (after_versions w kwargs self, inl e)
      | inr py =>
          let self2 :=
            <["CONDA_NPY" := numpy_given w kwargs]>
              (<["CONDA_PY" := VInt py]> (after_versions w kwargs self)) in
          if truthy (numpy_given w kwargs) then
            match replace_dot (numpy_given w kwargs) with
            | inl e => (self2, inl e)
            | inr t =>
                match py_int t with
                | inl e => (self2, inl e)
                | inr n =>
                    settings_loop w kwargs
                      (<["CONDA_NPY" := if n =? 0 then VNone else VInt n]>
                         self2)
                end
            end
          else settings_loop w kwargs self2
      end
  end.
Proof.
  unfold set_keys, bind, setattr, lift, getattr, ret, after_versions,
    settings_loop, after_identity; simpl.
  destruct (replace_dot (env w kwargs "python" (python_default w)))
    as [e|s]; [reflexivity |].
  destruct (py_int s) as [e|py]; [reflexivity |].
  rewrite lookup_insert_eq. fold (numpy_given w kwargs).
  destruct (truthy (numpy_given w kwargs)); [| reflexivity].
  destruct (replace_dot (numpy_given w kwargs)) as [e|t]; [reflexivity |].
  destruct (py_int t) as [e|n]; reflexivity.
Qed.

Lemma values_names_NoDup : NoDup (values w).*1.
Proof. apply (bool_decide_unpack _). vm_compute. reflexivity. Qed.

End set_keys_facts.

(** ** What a completed [set_keys] leaves in the object *)

Ltac list_cases H :=
  repeat (apply elem_of_cons in H; destruct H as [H | H]);
  try (apply elem_of_nil in H; destruct H).

Lemma after_versions_other (w : World) (kwargs : Kwargs) (self : Config)
      (name : string) :
  name ∉ version_attrs -> after_versions w kwargs self !! name = self !! name.
Proof.
  intros Hn. unfold version_attrs in Hn.
  repeat (apply not_elem_of_cons in Hn as [? Hn]).
  unfold after_versions. now rewrite !lookup_insert_ne by congruence.
Qed.

(** A call that returns has run the final loop on an object that differs
    from the one before the call at the version attributes only. *)
Lemma set_keys_ok_inv (w : World) (kwargs : Kwargs) (self self' : Config) :
  set_keys w kwargs self = (self', inr tt) ->
  exists mid : Config,
    self' = fst (settings_loop w kwargs mid) /\
    forall name, name ∉ version_attrs -> mid !! name = self !! name.
Proof.
  rewrite set_keys_run. intros H.
  assert (Hother : forall (py : Z) (npy : pyval) (name : string),
             name ∉ version_attrs ->
             <["CONDA_NPY" := npy]>
               (<["CONDA_PY" := VInt py]> (after_versions w kwargs self))
               !! name = self !! name).
  { intros py npy name Hn. pose proof Hn as Hn'. unfold version_attrs in Hn'.
    repeat (apply not_elem_of_cons in Hn' as [? Hn']).
    rewrite !lookup_insert_ne by congruence.
    now apply after_versions_other. }
  destruct (replace_dot (env w kwargs "python" (python_default w)))
    as [e|s]; [discriminate |].
  destruct (py_int s) as [e|py]; [discriminate |].
  cbv zeta in H.
  destruct (truthy (numpy_given w kwargs)).
  - destruct (replace_dot (numpy_given w kwargs)) as [e|t]; [discriminate |].
    destruct (py_int t) as [e|n]; [discriminate |].
    eexists; split; [now rewrite H |].
    intros name Hn. pose proof Hn as Hn'. unfold version_attrs in Hn'.
    repeat (apply not_elem_of_cons in Hn' as [? Hn']).
    rewrite lookup_insert_ne by congruence. now apply Hother.
  - eexists; split; [now rewrite H |]. intros name Hn. now apply Hother.
Qed.

Lemma setting_names_values (w : World) : (values w).*1 = setting_names.
Proof. reflexivity. Qed.

Lemma setting_not_version (name : string) :
  name ∈ setting_names -> name ∉ version_attrs.
Proof.
  intros H. unfold setting_names in H.
  list_cases H; subst name; unfold version_attrs;
    repeat (apply not_elem_of_cons; split; [discriminate |]);
    apply not_elem_of_nil.
Qed.

Lemma after_identity_setting (kwargs : Kwargs) (self : Config) (name : string) :
  name ∈ setting_names -> after_identity kwargs self !! name = self !! name.
Proof.
  intros H. unfold setting_names in H. unfold after_identity.
  list_cases H; subst name; now rewrite !lookup_insert_ne by discriminate.
Qed.

Lemma settings_loop_setting (w : World) (kwargs : Kwargs) (self : Config)
      (name : string) (dflt : pyval) :
  (name, dflt) ∈ values w ->
  fst (settings_loop w kwargs self) !! name
  = Some (kwargs_get kwargs name (default dflt (self !! name))).
Proof.
  intros Hin. unfold settings_loop.
  rewrite (for_each_settings_lookup kwargs (values w) _ name dflt)
    by (apply values_names_NoDup || exact Hin).
  rewrite after_identity_setting; [reflexivity |].
  rewrite <- (setting_names_values w). apply list_elem_of_fmap.
  now exists (name, dflt).
Qed.

Lemma settings_loop_identity (w : World) (kwargs : Kwargs) (self : Config)
      (name : string) :
  name ∉ setting_names ->
  fst (settings_loop w kwargs self) !! name
  = after_identity kwargs self !! name.
Proof.
  intros Hn. unfold settings_loop.
  apply for_each_settings_other. now rewrite setting_names_values.
Qed.

(** The settings of the [values] list: explicit override, then the
    value the object already has, then the default. *)
Lemma set_keys_setting (w : World) (kwargs : Kwargs) (self self' : Config)
      (name : string) (dflt : pyval) :
  (name, dflt) ∈ values w ->
  set_keys w kwargs self = (self', inr tt) ->
  self' !! name = Some (kwargs_get kwargs name (default dflt (self !! name))).
Proof.
  intros Hin Hrun.
  destruct (set_keys_ok_inv _ _ _ _ Hrun) as (mid & -> & Hmid).
  rewrite (settings_loop_setting w kwargs mid name dflt Hin).
  rewrite Hmid; [reflexivity |].
  apply setting_not_version. rewrite <- (setting_names_values w).
  apply list_elem_of_fmap. now exists (name, dflt).
Qed.

(** The four attributes assigned just before the loop. *)
Lemma set_keys_identity (w : World) (kwargs : Kwargs) (self self' : Config) :
  set_keys w kwargs self = (self', inr tt) ->
  self' !! "_build_id" = Some (kwargs_get kwargs "build_id" (VStr "")) /\
  self' !! "_prefix_length"
  = Some (kwargs_get kwargs "prefix_length" (VInt 80)) /\
  self' !! "_croot" = Some (kwargs_get kwargs "croot" VNone) /\
  self' !! "use_long_build_prefix"
  = Some (kwargs_get kwargs "use_long_build_prefix" (VBool false)).
Proof.
  intros Hrun.
  destruct (set_keys_ok_inv _ _ _ _ Hrun) as (mid & -> & _).
  assert (Hnot : forall name,
             bool_decide (name ∈ setting_names) = false ->
             name ∉ setting_names).
  { intros name Hb Hin. apply bool_decide_eq_false in Hb. now apply Hb. }
  rewrite !settings_loop_identity by (apply Hnot; vm_compute; reflexivity).
  unfold after_identity.
  repeat split.
  - now rewrite !lookup_insert_ne, lookup_insert_eq by discriminate.
  - now rewrite !lookup_insert_ne, lookup_insert_eq by discriminate.
  - now rewrite !lookup_insert_ne, lookup_insert_eq by discriminate.
  - now rewrite lookup_insert_eq.
Qed.

Lemma set_keys_pair (w : World) (kwargs : Kwargs) (self : Config) :
  snd (set_keys w kwargs self) = inr tt ->
  set_keys w kwargs self = (fst (set_keys w kwargs self), inr tt).
Proof. intros H. rewrite <- H. apply surjective_pairing. Qed.

(** ** Merging overrides *)

(** C2, as the code has it.  For each of the thirteen settings of the
    [values] list a completed [set_keys] resolves the explicit override
    first, then the value the object already holds, then the hardcoded
    default; so a later [set_keys] with an empty mapping leaves such a
    setting as it was.  (The build identity, the prefix length, the croot
    and [use_long_build_prefix] are not in this class.) *)
Theorem settings_precedence (w : World) (kwargs : Kwargs)
        (self self' : Config) (name : string) (dflt : pyval) :
  (name, dflt) ∈ values w ->
  set_keys w kwargs self = (self', inr tt) ->
  self' !! name
  = Some (match kwargs !! name with
          | Some override => override
          | None => match self !! name with
                    | Some current => current
                    | None => dflt
                    end
          end)
  /\ forall self'' : Config,
       set_keys w ∅ self' = (self'', inr tt) -> self'' !! name = self' !! name.
Proof.
  intros Hin Hrun.
  pose proof (set_keys_setting w kwargs self self' name dflt Hin Hrun) as H1.
  split.
  - rewrite H1. unfold kwargs_get.
    destruct (kwargs !! name), (self !! name); reflexivity.
  - intros self'' Hrun2.
    rewrite (set_keys_setting w ∅ self' self'' name dflt Hin Hrun2).
    unfold kwargs_get. rewrite lookup_empty. simpl. now rewrite H1.
Qed.

Lemma settings_precedence_witness :
  ("noarch", VBool false) ∈ values posix_world /\
  set_keys posix_world {[ "noarch" := VBool true ]} ∅
  = (fst (set_keys posix_world {[ "noarch" := VBool true ]} ∅), inr tt) /\
  fst (set_keys posix_world {[ "noarch" := VBool true ]} ∅) !! "noarch"
  = Some (match ({[ "noarch" := VBool true ]} : Kwargs) !! "noarch" with
          | Some override => override
          | None => match (∅ : Config) !! "noarch" with
                    | Some current => current
                    | None => VBool false
                    end
          end)
  /\ forall self'' : Config,
       set_keys posix_world ∅
         (fst (set_keys posix_world {[ "noarch" := VBool true ]} ∅))
       = (self'', inr tt) ->
       self'' !! "noarch"
       = fst (set_keys posix_world {[ "noarch" := VBool true ]} ∅) !! "noarch".
Proof.
  assert (Hin : ("noarch", VBool false) ∈ values posix_world).
  { apply list_elem_of_In. simpl. tauto. }
  assert (Hrun : set_keys posix_world {[ "noarch" := VBool true ]} ∅
                 = (fst (set_keys posix_world {[ "noarch" := VBool true ]} ∅),
                    inr tt)).
  { apply set_keys_pair. vm_compute. reflexivity. }
  split; [exact Hin | split; [exact Hrun |]].
  exact (settings_precedence posix_world {[ "noarch" := VBool true ]} ∅ _
           "noarch" (VBool false) Hin Hrun).
Defined.

(** C2, as stated, fails for the build identity: after a merge that set
    [build_id], a merge of the empty mapping puts it back to the empty
    string. *)
Lemma empty_merge_resets_build_id :
  snd (Config_init posix_world kwargs_build_id) = inr tt /\
  config_with_build_id !! "_build_id" = Some (VStr "foo-1.0-123456") /\
  snd (set_keys posix_world ∅ config_with_build_id) = inr tt /\
  fst (set_keys posix_world ∅ config_with_build_id) !! "_build_id"
  = Some (VStr "").
Proof. vm_compute. repeat split; reflexivity. Qed.

(** C10.  A [set_keys] call that returns, whatever the object held
    before, leaves [build_id], [prefix_length], [croot] and
    [use_long_build_prefix] at their defaults (the empty string, 80, the
    unresolved [None] and [False]) when the mapping omits them, and keeps
    the prior value of each of the thirteen listed settings that the
    mapping omits; the constructor and [get_or_merge_config] with a
    non-empty mapping go through that same call. *)
Theorem set_keys_omitted (w : World) (kwargs : Kwargs) (self self' : Config) :
  set_keys w kwargs self = (self', inr tt) ->
  (kwargs !! "build_id" = None -> self' !! "_build_id" = Some (VStr "")) /\
  (kwargs !! "prefix_length" = None ->
   self' !! "_prefix_length" = Some (VInt 80)) /\
  (kwargs !! "croot" = None -> self' !! "_croot" = Some VNone) /\
  (kwargs !! "use_long_build_prefix" = None ->
   self' !! "use_long_build_prefix" = Some (VBool false)) /\
  (forall (name : string) (prior : pyval),
      name ∈ [ "activate"; "anaconda_upload"; "channel_urls"; "dirty";
               "include_recipe"; "keep_old_work"; "noarch";
               "no_download_source"; "override_channels"; "skip_existing";
               "token"; "user"; "verbose" ] ->
      kwargs !! name = None -> self !! name = Some prior ->
      self' !! name = Some prior) /\
  Config_init w kwargs = set_keys w kwargs ∅ /\
  (kwargs <> ∅ ->
   get_or_merge_config w (Some self) kwargs = set_keys w kwargs self) /\
  (kwargs <> ∅ ->
   forall fresh : Config,
     Config_init w ∅ = (fresh, inr tt) ->
     get_or_merge_config w None kwargs = set_keys w kwargs fresh).
Proof.
  intros Hrun.
  destruct (set_keys_identity w kwargs self self' Hrun) as (Hb & Hp & Hc & Hu).
  unfold kwargs_get in Hb, Hp, Hc, Hu.
  repeat split.
  - intros E. now rewrite Hb, E.
  - intros E. now rewrite Hp, E.
  - intros E. now rewrite Hc, E.
  - intros E. now rewrite Hu, E.
  - intros name prior Hin Hk Hs.
    change (name ∈ setting_names) in Hin.
    rewrite <- (setting_names_values w) in Hin.
    apply list_elem_of_fmap in Hin as [[n d] [-> Hin]]. simpl in *.
    rewrite (set_keys_setting w kwargs self self' n d Hin Hrun).
    unfold kwargs_get. now rewrite Hk, Hs.
  - intros Hne. unfold get_or_merge_config.
    destruct (Nat.eqb (size kwargs) 0) eqn:E; [| reflexivity].
    apply Nat.eqb_eq, map_size_empty_iff in E. contradiction.
  - intros Hne fresh Hinit. unfold get_or_merge_config. rewrite Hinit.
    destruct (Nat.eqb (size kwargs) 0) eqn:E; [| reflexivity].
    apply Nat.eqb_eq, map_size_empty_iff in E. contradiction.
Qed.

Lemma set_keys_omitted_witness :
  set_keys posix_world {[ "noarch" := VBool true ]} config_with_build_id
  = (fst (set_keys posix_world {[ "noarch" := VBool true ]}
            config_with_build_id), inr tt) /\
  fst (set_keys posix_world {[ "noarch" := VBool true ]} config_with_build_id)
    !! "_build_id" = Some (VStr "") /\
  fst (set_keys posix_world {[ "noarch" := VBool true ]} config_with_build_id)
    !! "verbose" = Some (VBool false).
Proof.
  assert (Hrun : set_keys posix_world {[ "noarch" := VBool true ]}
                   config_with_build_id
                 = (fst (set_keys posix_world {[ "noarch" := VBool true ]}
                           config_with_build_id), inr tt)).
  { apply set_keys_pair. vm_compute. reflexivity. }
  destruct (set_keys_omitted posix_world {[ "noarch" := VBool true ]}
              config_with_build_id _ Hrun) as (Hb & _ & _ & _ & Hs & _).
  split; [exact Hrun | split].
  - apply Hb. vm_compute. reflexivity.
  - apply (Hs "verbose" (VBool false)).
    + apply list_elem_of_In. simpl. tauto.
    + vm_compute. reflexivity.
    + vm_compute. reflexivity.
Defined.

(** ** Version settings *)

Lemma env_var_names :
  env_var "perl" = "CONDA_PERL" /\ env_var "lua" = "CONDA_LUA" /\
  env_var "r" = "CONDA_R" /\ env_var "python" = "CONDA_PY".
Proof. repeat split; reflexivity. Qed.

(** [env] follows the specified resolution, for any setting name. *)
Lemma env_resolution (w : World) (kwargs : Kwargs) (lang dflt : string) :
  env w kwargs lang dflt
  = version_resolution (kwargs !! lang) (environ w !! env_var lang) dflt.
Proof.
  unfold env, version_resolution, kwargs_get, getenv, override_value.
  assert (Hfb : match environ w !! env_var lang with
                | Some s => if truthy (VStr s) then VStr s else VStr dflt
                | None => VStr dflt
                end
                = match environ w !! env_var lang with
                  | Some s => if String.eqb s "" then VStr dflt else VStr s
                  | None => VStr dflt
                  end).
  { destruct (environ w !! env_var lang) as [s|]; [| reflexivity].
    simpl. now destruct (String.eqb s ""). }
  destruct (kwargs !! lang) as [v|]; simpl.
  - destruct (truthy v); simpl; [reflexivity | exact Hfb].
  - exact Hfb.
Qed.

Lemma not_setting (name : string) :
  bool_decide (name ∈ setting_names) = false -> name ∉ setting_names.
Proof. intros Hb Hin. apply bool_decide_eq_false in Hb. now apply Hb. Qed.

(** The three plain version attributes are assigned before anything can
    raise and are not touched afterwards. *)
Lemma set_keys_plain_versions (w : World) (kwargs : Kwargs) (self : Config) :
  fst (set_keys w kwargs self) !! "CONDA_PERL"
  = Some (env w kwargs "perl" "5.18.2") /\
  fst (set_keys w kwargs self) !! "CONDA_LUA"
  = Some (env w kwargs "lua" "5.2") /\
  fst (set_keys w kwargs self) !! "CONDA_R"
  = Some (env w kwargs "r" "3.2.2").
Proof.
  rewrite set_keys_run.
  assert (Hv : after_versions w kwargs self !! "CONDA_PERL"
               = Some (env w kwargs "perl" "5.18.2") /\
               after_versions w kwargs self !! "CONDA_LUA"
               = Some (env w kwargs "lua" "5.2") /\
               after_versions w kwargs self !! "CONDA_R"
               = Some (env w kwargs "r" "3.2.2")).
  { unfold after_versions. repeat split.
    - now rewrite !lookup_insert_ne, lookup_insert_eq by discriminate.
    - now rewrite lookup_insert_ne, lookup_insert_eq by discriminate.
    - now rewrite lookup_insert_eq. }
  assert (Hloop : forall (mid : Config) (name : string),
             bool_decide (name ∈ setting_names) = false ->
             after_identity kwargs mid !! name = mid !! name ->
             fst (settings_loop w kwargs mid) !! name = mid !! name).
  { intros mid name Hb Hid.
    rewrite settings_loop_identity by now apply not_setting. exact Hid. }
  destruct (replace_dot (env w kwargs "python" (python_default w)))
    as [e|s]; [exact Hv |].
  destruct (py_int s) as [e|py]; [exact Hv |].
  cbv zeta.
  destruct (truthy (numpy_given w kwargs)).
  - destruct (replace_dot (numpy_given w kwargs)) as [e|t];
      [| destruct (py_int t) as [e|n]]; simpl;
      rewrite ?Hloop by
        (reflexivity
         || (unfold after_identity;
             now rewrite !lookup_insert_ne by discriminate));
      rewrite !lookup_insert_ne by discriminate; exact Hv.
  - rewrite !Hloop by
      (reflexivity
       || (unfold after_identity;
           now rewrite !lookup_insert_ne by discriminate)).
    rewrite !lookup_insert_ne by discriminate. exact Hv.
Qed.

(** [CONDA_PY] holds the integer read from the resolved text as soon as
    that text is a string [int] accepts, also when a later stage raises. *)
Lemma set_keys_conda_py (w : World) (kwargs : Kwargs) (self : Config)
      (s : string) (z : Z) :
  env w kwargs "python" (python_default w) = VStr s ->
  pyint.of_string (pystr.remove "." s) = Some z ->
  fst (set_keys w kwargs self) !! "CONDA_PY" = Some (VInt z).
Proof.
  intros Henv Hint. rewrite set_keys_run, Henv. simpl.
  assert (Hpy : py_int (pystr.remove "." s) = inr z)
    by (unfold py_int; now rewrite Hint).
  rewrite Hpy. cbv zeta.
  assert (Hloop : forall (mid : Config),
             mid !! "CONDA_PY" = Some (VInt z) ->
             fst (settings_loop w kwargs mid) !! "CONDA_PY" = Some (VInt z)).
  { intros mid Hm.
    rewrite settings_loop_identity by (apply not_setting; reflexivity).
    unfold after_identity. now rewrite !lookup_insert_ne by discriminate. }
  assert (H2 : (<["CONDA_NPY" := numpy_given w kwargs]>
                  (<["CONDA_PY" := VInt z]> (after_versions w kwargs self)))
                 !! "CONDA_PY" = Some (VInt z)).
  { now rewrite lookup_insert_ne, lookup_insert_eq by discriminate. }
  destruct (truthy (numpy_given w kwargs)).
  - destruct (replace_dot (numpy_given w kwargs)) as [e|t];
      [exact H2 | destruct (py_int t) as [e|n]; [exact H2 |]].
    apply Hloop. now rewrite lookup_insert_ne by discriminate.
  - now apply Hloop.
Qed.

(** C3.  Each of the version settings perl, lua, r and python resolves
    to the explicit override when that is truthy (a one-element list
    standing for its element), else to the environment variable
    CONDA_PERL, CONDA_LUA, CONDA_R, respectively CONDA_PY, when it is set
    and not empty, else to the built-in default; a variable set to the
    empty string resolves as an unset one. *)
Theorem version_precedence (w : World) (kwargs : Kwargs) (self : Config) :
  fst (set_keys w kwargs self) !! "CONDA_PERL"
  = Some (version_resolution (kwargs !! "perl")
            (environ w !! "CONDA_PERL") "5.18.2") /\
  fst (set_keys w kwargs self) !! "CONDA_LUA"
  = Some (version_resolution (kwargs !! "lua")
            (environ w !! "CONDA_LUA") "5.2") /\
  fst (set_keys w kwargs self) !! "CONDA_R"
  = Some (version_resolution (kwargs !! "r")
            (environ w !! "CONDA_R") "3.2.2") /\
  env w kwargs "python" (python_default w)
  = version_resolution (kwargs !! "python")
      (environ w !! "CONDA_PY") (python_default w) /\
  (forall (override : option pyval) (dflt : string),
      version_resolution override (Some "") dflt
      = version_resolution override None dflt).
Proof.
  destruct (set_keys_plain_versions w kwargs self) as (Hp & Hl & Hr).
  rewrite Hp, Hl, Hr, !env_resolution.
  repeat split.
Qed.

(** ** One-element lists as overrides *)

Lemma for_each_ext {A : Type} (l : list A) (f g : A -> M unit) :
  (forall x, x ∈ l -> f x = g x) -> for_each l f = for_each l g.
Proof.
  induction l as [|x l IH]; intros H; [reflexivity |].
  simpl. rewrite (H x) by apply list_elem_of_here.
  rewrite IH; [reflexivity |].
  intros y Hy. apply H. now apply list_elem_of_further.
Qed.

Lemma set_attribute_from_kwargs_ext (kw1 kw2 : Kwargs) (attr : string)
      (dflt : pyval) :
  kw1 !! attr = kw2 !! attr ->
  _set_attribute_from_kwargs kw1 attr dflt
  = _set_attribute_from_kwargs kw2 attr dflt.
Proof.
  intros H. unfold _set_attribute_from_kwargs, kwargs_get. now rewrite H.
Qed.

Lemma not_env_lang (key : string) :
  bool_decide (key ∈ env_langs) = false -> key ∉ env_langs.
Proof. intros Hb Hin. apply bool_decide_eq_false in Hb. now apply Hb. Qed.

(** [set_keys] reads the mapping through [env] for the four languages
    and through plain look-ups of other keys. *)
Lemma set_keys_congr (w : World) (kw1 kw2 : Kwargs) (self : Config) :
  (forall lang dflt, lang ∈ env_langs ->
                     env w kw1 lang dflt = env w kw2 lang dflt) ->
  (forall key, key ∉ env_langs -> kw1 !! key = kw2 !! key) ->
  set_keys w kw1 self = set_keys w kw2 self.
Proof.
  intros He Hk. unfold set_keys.
  rewrite (He "perl"), (He "lua"), (He "r"), (He "python")
    by (apply list_elem_of_In; simpl; tauto).
  unfold kwargs_get.
  rewrite (Hk "numpy"), (Hk "build_id"), (Hk "prefix_length"),
    (Hk "croot"), (Hk "use_long_build_prefix")
    by (apply not_env_lang; reflexivity).
  rewrite (for_each_ext (values w)
             (fun v => _set_attribute_from_kwargs kw1 (fst v) (snd v))
             (fun v => _set_attribute_from_kwargs kw2 (fst v) (snd v)));
    [reflexivity |].
  intros [name dflt] Hin. simpl.
  apply set_attribute_from_kwargs_ext, Hk.
  assert (Hs : name ∈ setting_names).
  { rewrite <- (setting_names_values w). apply list_elem_of_fmap.
    now exists (name, dflt). }
  unfold setting_names in Hs.
  list_cases Hs; subst name; apply not_env_lang; reflexivity.
Qed.

(** C7, as the code has it.  For perl, lua, r and python, and every
    truthy scalar [v], [set_keys] with the override given as the
    one-element list [[v]] does exactly what it does with the override
    given as [v]: same attributes, same outcome. *)
Theorem single_element_override (w : World) (kwargs : Kwargs)
        (self : Config) (lang : string) (v : pyval) :
  lang ∈ [ "perl"; "lua"; "r"; "python" ] ->
  is_scalar v = true ->
  truthy v = true ->
  set_keys w (<[lang := VList [v]]> kwargs) self
  = set_keys w (<[lang := v]> kwargs) self.
Proof.
  intros Hlang Hscalar Htruthy.
  apply set_keys_congr.
  - intros l dflt _. rewrite !env_resolution.
    destruct (decide (l = lang)) as [-> | Hne].
    + rewrite !lookup_insert_eq. unfold version_resolution.
      rewrite Htruthy. simpl.
      destruct v; simpl in *; try reflexivity; discriminate.
    + now rewrite !lookup_insert_ne by congruence.
  - intros key Hkey.
    assert (lang <> key) by (intros ->; contradiction).
    now rewrite !lookup_insert_ne.
Qed.

Lemma single_element_override_witness :
  "python" ∈ [ "perl"; "lua"; "r"; "python" ] /\
  is_scalar (VStr "2.7") = true /\
  truthy (VStr "2.7") = true /\
  set_keys posix_world (<["python" := VList [VStr "2.7"]]> ∅) ∅
  = set_keys posix_world (<["python" := VStr "2.7"]> ∅) ∅.
Proof.
  assert (Hin : "python" ∈ [ "perl"; "lua"; "r"; "python" ]).
  { apply list_elem_of_In. simpl. tauto. }
  split; [exact Hin | split; [reflexivity | split; [reflexivity |]]].
  apply (single_element_override posix_world ∅ ∅ "python" (VStr "2.7") Hin);
    reflexivity.
Defined.

(** C7, as stated, fails for a falsy scalar: the empty string inside a
    list is taken as the version, the bare empty string is not. *)
Lemma empty_string_in_list_differs :
  is_scalar (VStr "") = true /\
  fst (Config_init posix_world {[ "perl" := VList [VStr ""] ]}) !! "CONDA_PERL"
  = Some (VStr "") /\
  fst (Config_init posix_world {[ "perl" := VStr "" ]}) !! "CONDA_PERL"
  = Some (VStr "5.18.2").
Proof. vm_compute. repeat split; reflexivity. Qed.

(** The numpy override is not read through [env]: a list is not
    unwrapped and has no [replace] method. *)
Example numpy_list_raises :
  snd (Config_init posix_world {[ "numpy" := VList [VStr "1.11"] ]})
  = inl AttributeError /\
  snd (Config_init posix_world {[ "numpy" := VStr "1.11" ]}) = inr tt /\
  fst (Config_init posix_world {[ "numpy" := VStr "1.11" ]}) !! "CONDA_NPY"
  = Some (VInt 111).
Proof. vm_compute. repeat split; reflexivity. Qed.

(** ** Reading an integer from a version text *)

Section int_facts.

Import pyint.

Lemma digit_char (c : ascii) :
  is_digit c = true ->
  is_space c = false /\ is_sign c = false /\ Ascii.eqb c "." = false.
Proof.
  destruct c as [[] [] [] [] [] [] [] []]; vm_compute; intros H;
    (discriminate H || (repeat split; reflexivity)).
Qed.

Lemma dot_not_digit : is_digit "." = false.
Proof. reflexivity. Qed.

Lemma space_not_digit (c : ascii) : is_space c = true -> is_digit c = false.
Proof.
  intros Hs. destruct (is_digit c) eqn:E; [| reflexivity].
  apply digit_char in E as (E & _). congruence.
Qed.

Lemma any_lstrip (p : ascii -> bool) (s : string) :
  pystr.any p (lstrip s) = true -> pystr.any p s = true.
Proof.
  induction s as [|c s IH]; simpl; [auto |].
  destruct (is_space c); [| auto].
  intros H. rewrite (IH H). apply orb_true_r.
Qed.

Lemma any_rstrip (p : ascii -> bool) (s : string) :
  pystr.any p (rstrip s) = true -> pystr.any p s = true.
Proof.
  induction s as [|c s IH]; simpl; [auto |].
  destruct (rstrip s) as [|c' r] eqn:E.
  - destruct (is_space c); simpl; intros H; [discriminate |].
    rewrite orb_false_r in H. now rewrite H.
  - simpl. intros H. destruct (p c); simpl in *; [reflexivity |].
    now apply IH.
Qed.

Lemma all_lstrip (q : ascii -> bool) (s : string) :
  (forall c, is_space c = true -> q c = true) ->
  pystr.all q (lstrip s) = true -> pystr.all q s = true.
Proof.
  intros Hq. induction s as [|c s IH]; simpl; [auto |].
  destruct (is_space c) eqn:Hc; [| auto].
  intros H. now rewrite (Hq c Hc), (IH H).
Qed.

Lemma all_rstrip (q : ascii -> bool) (s : string) :
  (forall c, is_space c = true -> q c = true) ->
  pystr.all q (rstrip s) = true -> pystr.all q s = true.
Proof.
  intros Hq. induction s as [|c s IH]; simpl; [auto |].
  destruct (rstrip s) as [|c' r] eqn:E.
  - destruct (is_space c) eqn:Hc; simpl; intros H.
    + now rewrite (Hq c Hc), IH.
    + apply andb_true_iff in H as [H _]. now rewrite H, IH.
  - simpl. intros H. apply andb_true_iff in H as [H1 H2].
    now rewrite H1, IH.
Qed.

Lemma lstrip_no_space (s : string) :
  pystr.all (fun c => negb (is_space c)) s = true -> lstrip s = s.
Proof.
  destruct s as [|c s]; simpl; [reflexivity |].
  intros H. apply andb_true_iff in H as [H _].
  now destruct (is_space c).
Qed.

Lemma rstrip_no_space (s : string) :
  pystr.all (fun c => negb (is_space c)) s = true -> rstrip s = s.
Proof.
  induction s as [|c s IH]; simpl; [reflexivity |].
  intros H. apply andb_true_iff in H as [H1 H2].
  rewrite (IH H2). destruct s; [| reflexivity].
  now destruct (is_space c).
Qed.

Lemma all_impl (p q : ascii -> bool) (s : string) :
  (forall c, p c = true -> q c = true) ->
  pystr.all p s = true -> pystr.all q s = true.
Proof.
  intros Hpq. induction s as [|c s IH]; simpl; [auto |].
  intros H. apply andb_true_iff in H as [H1 H2].
  now rewrite (Hpq c H1), IH.
Qed.

Lemma any_negb_all (q : ascii -> bool) (s : string) :
  pystr.any (fun c => negb (q c)) s = negb (pystr.all q s).
Proof.
  induction s as [|c s IH]; simpl; [reflexivity |].
  rewrite IH. now destruct (q c), (pystr.all q s).
Qed.

Lemma digits_all (s : string) (acc z : Z) :
  digits acc s = Some z -> pystr.all is_digit s = true.
Proof.
  revert acc; induction s as [|c s IH]; intros acc; simpl; [auto |].
  destruct (is_digit c); [| discriminate]. intros H. simpl. eauto.
Qed.

Lemma number_all (s : string) (z : Z) :
  number s = Some z ->
  pystr.all is_digit s = true /\ pystr.any is_digit s = true.
Proof.
  destruct s as [|c s]; [discriminate |].
  unfold number. intros H. pose proof (digits_all _ _ _ H) as Ha.
  split; [exact Ha |]. simpl in *.
  apply andb_true_iff in Ha as [Hc _]. now rewrite Hc.
Qed.

(** What [int] accepts has a digit, and nothing but digits, signs and
    white space. *)
Lemma of_string_accepts (t : string) (z : Z) :
  of_string t = Some z ->
  pystr.any is_digit t = true /\
  pystr.all (fun c => is_digit c || is_space c || is_sign c) t = true.
Proof.
  unfold of_string. intros H.
  set (ok := fun c => is_digit c || is_space c || is_sign c).
  assert (Hok : forall c, is_space c = true -> ok c = true).
  { intros c Hc. unfold ok. rewrite Hc. now destruct (is_digit c). }
  assert (Hdig : forall c, is_digit c = true -> ok c = true).
  { intros c Hc. unfold ok. now rewrite Hc. }
  enough (pystr.any is_digit (rstrip (lstrip t)) = true /\
          pystr.all ok (rstrip (lstrip t)) = true) as [Hany Hall].
  { split.
    - now apply any_lstrip, any_rstrip.
    - apply all_lstrip; [exact Hok |]. now apply all_rstrip. }
  destruct (rstrip (lstrip t)) as [|c d]; [discriminate |].
  destruct (Ascii.eqb c "+") eqn:Eplus;
    [| destruct (Ascii.eqb c "-") eqn:Eminus].
  - apply number_all in H as [Ha Hb]. simpl. rewrite Hb. split.
    + apply orb_true_r.
    + unfold ok at 1, is_sign. rewrite Eplus.
      rewrite orb_true_r. simpl. now apply (all_impl is_digit).
  - destruct (number d) as [z'|] eqn:En; [| discriminate].
    apply number_all in En as [Ha Hb]. simpl. rewrite Hb. split.
    + apply orb_true_r.
    + unfold ok at 1, is_sign. rewrite Eminus.
      rewrite !orb_true_r. simpl. now apply (all_impl is_digit).
  - apply number_all in H as [Ha Hb]. split; [exact Hb |].
    now apply (all_impl is_digit).
Qed.

Lemma stray_char_rejected (c : ascii) :
  stray_char c = true -> is_digit c || is_space c || is_sign c = false.
Proof.
  destruct c as [[] [] [] [] [] [] [] []]; vm_compute; intros H;
    (discriminate H || reflexivity).
Qed.

Lemma any_all_disjoint (p q : ascii -> bool) (s : string) :
  (forall c, p c = true -> q c = false) ->
  pystr.any p s = true -> pystr.all q s = false.
Proof.
  intros Hpq. induction s as [|c s IH]; simpl; [discriminate |].
  destruct (p c) eqn:Ep; simpl; intros H.
  - now rewrite (Hpq c Ep).
  - rewrite (IH H). apply andb_false_r.
Qed.

Lemma malformed_rejected (s : string) :
  malformed s = true -> of_string (pystr.remove "." s) = None.
Proof.
  unfold malformed. intros H.
  destruct (of_string (pystr.remove "." s)) as [z|] eqn:E; [| reflexivity].
  apply of_string_accepts in E as [Hany Hall].
  rewrite Hany, andb_false_r in H. simpl in H.
  apply (any_all_disjoint _ _ _ stray_char_rejected) in H. congruence.
Qed.

Lemma digits_concat (s : string) (acc : Z) :
  pystr.all (fun c => is_digit c || Ascii.eqb c ".") s = true ->
  digits acc (pystr.remove "." s) = Some (concat_digits_from acc s) /\
  pystr.all is_digit (pystr.remove "." s) = true.
Proof.
  revert acc; induction s as [|c s IH]; intros acc; simpl; [auto |].
  intros H. apply andb_true_iff in H as [Hc Hs].
  destruct (is_digit c) eqn:Ed.
  - destruct (digit_char c Ed) as (_ & _ & Edot). rewrite Edot. simpl.
    rewrite Ed. simpl. exact (IH _ Hs).
  - simpl in Hc. rewrite Hc. exact (IH _ Hs).
Qed.

Lemma remove_dot_any_digit (s : string) :
  pystr.any is_digit s = true ->
  pystr.any is_digit (pystr.remove "." s) = true.
Proof.
  induction s as [|c s IH]; simpl; [auto |].
  destruct (is_digit c) eqn:Ed; simpl.
  - intros _. destruct (digit_char c Ed) as (_ & _ & Edot). rewrite Edot.
    simpl. now rewrite Ed.
  - intros H. destruct (Ascii.eqb c "."); [auto |]. simpl.
    rewrite (IH H). apply orb_true_r.
Qed.

(** On a version text [int], after the dots are removed, reads the
    digits of the text. *)
Lemma int_of_version_text (s : string) :
  version_text s = true ->
  of_string (pystr.remove "." s) = Some (concat_digits s).
Proof.
  unfold version_text. intros H. apply andb_true_iff in H as [Hall Hany].
  destruct (digits_concat s 0 Hall) as [Hd Hdig].
  apply remove_dot_any_digit in Hany.
  assert (Hns : pystr.all (fun c => negb (is_space c))
                  (pystr.remove "." s) = true).
  { apply (all_impl is_digit); [| exact Hdig].
    intros c Hc. now destruct (digit_char c Hc) as (-> & _). }
  unfold of_string. rewrite (lstrip_no_space _ Hns), (rstrip_no_space _ Hns).
  fold (concat_digits s) in Hd.
  destruct (pystr.remove "." s) as [|c d]; [discriminate |].
  simpl in Hdig. apply andb_true_iff in Hdig as [Hc _].
  destruct (digit_char c Hc) as (_ & Hsign & _).
  unfold is_sign in Hsign. apply orb_false_iff in Hsign as [-> ->].
  exact Hd.
Qed.

End int_facts.

(** ** Malformed and well-formed version texts *)

(** Whether [set_keys] raises is decided by the python text and the
    numpy value alone. *)
Lemma set_keys_outcome_congr (w : World) (kw1 kw2 : Kwargs)
      (self1 self2 : Config) :
  env w kw1 "python" (python_default w)
  = env w kw2 "python" (python_default w) ->
  numpy_given w kw1 = numpy_given w kw2 ->
  snd (set_keys w kw1 self1) = snd (set_keys w kw2 self2).
Proof.
  intros He Hn. rewrite !set_keys_run, He, Hn.
  destruct (replace_dot (env w kw2 "python" (python_default w)))
    as [e|s]; [reflexivity |].
  destruct (py_int s) as [e|py]; [reflexivity |].
  cbv zeta. unfold settings_loop.
  destruct (truthy (numpy_given w kw2)).
  - destruct (replace_dot (numpy_given w kw2)) as [e|t]; [reflexivity |].
    destruct (py_int t) as [e|n]; [reflexivity |].
    now rewrite !for_each_settings_ok.
  - now rewrite !for_each_settings_ok.
Qed.

(** C5, as the code has it.  A python version text that cannot be
    normalized makes [set_keys] raise [ValueError] during the merge, and a
    non-empty numpy value of that kind makes it raise as well; the perl,
    lua and r overrides are stored as given and have no influence on
    whether the merge raises. *)
Theorem malformed_version_raises (w : World) (kwargs : Kwargs)
        (self : Config) (s : string) :
  malformed s = true ->
  (env w kwargs "python" (python_default w) = VStr s ->
   snd (set_keys w kwargs self) = inl ValueError) /\
  (numpy_given w kwargs = VStr s -> s <> "" ->
   exists e : exn, snd (set_keys w kwargs self) = inl e) /\
  (forall (lang : string) (v : pyval),
      lang ∈ [ "perl"; "lua"; "r" ] ->
      snd (set_keys w (<[lang := v]> kwargs) self)
      = snd (set_keys w kwargs self)).
Proof.
  intros Hbad. pose proof (malformed_rejected s Hbad) as Hnone.
  assert (Hpy : py_int (pystr.remove "." s) = inl ValueError)
    by (unfold py_int; now rewrite Hnone).
  repeat split.
  - intros Henv. rewrite set_keys_run, Henv. simpl. now rewrite Hpy.
  - intros Hnpy Hne. rewrite set_keys_run.
    destruct (replace_dot (env w kwargs "python" (python_default w)))
      as [e|t]; [now exists e |].
    destruct (py_int t) as [e|py]; [now exists e |].
    cbv zeta. rewrite Hnpy. simpl.
    destruct (String.eqb_spec s ""); [contradiction |]. simpl.
    rewrite Hpy. now exists ValueError.
  - intros lang v Hlang.
    list_cases Hlang; subst lang; apply set_keys_outcome_congr;
      solve [ rewrite !env_resolution; now rewrite lookup_insert_ne
            | unfold numpy_given, kwargs_get; now rewrite lookup_insert_ne ].
Qed.

Lemma malformed_version_raises_witness :
  malformed "3.5rc1" = true /\
  env posix_world {[ "python" := VStr "3.5rc1" ]} "python"
    (python_default posix_world) = VStr "3.5rc1" /\
  snd (set_keys posix_world {[ "python" := VStr "3.5rc1" ]} ∅)
  = inl ValueError.
Proof.
  assert (Hbad : malformed "3.5rc1" = true) by reflexivity.
  assert (Henv : env posix_world {[ "python" := VStr "3.5rc1" ]} "python"
                   (python_default posix_world) = VStr "3.5rc1")
    by (vm_compute; reflexivity).
  split; [exact Hbad | split; [exact Henv |]].
  exact (proj1 (malformed_version_raises posix_world
                  {[ "python" := VStr "3.5rc1" ]} ∅ "3.5rc1" Hbad) Henv).
Defined.

(** C5, as stated, fails for perl: an override that has no digit at all
    is accepted and stored. *)
Lemma malformed_perl_accepted :
  malformed "abc" = true /\
  snd (Config_init posix_world {[ "perl" := VStr "abc" ]}) = inr tt /\
  fst (Config_init posix_world {[ "perl" := VStr "abc" ]}) !! "CONDA_PERL"
  = Some (VStr "abc").
Proof. vm_compute. repeat split; reflexivity. Qed.

Lemma PY3K_run (self : Config) (py : Z) :
  self !! "CONDA_PY" = Some (VInt py) ->
  PY3K self = (self, inr (VInt (if 30 <=? py then 1 else 0))).
Proof. intros H. unfold PY3K, bind, getattr, lift, ret. now rewrite H. Qed.

(** C6.  When the python version text (from the override, the
    environment or the default) is made of digits and dots, [CONDA_PY] is
    the integer whose digits are those of the text with the dots left
    out, and [PY3K] is true exactly when that integer is at least 30. *)
Theorem primary_version_normalized (w : World) (kwargs : Kwargs)
        (self : Config) (s : string) :
  env w kwargs "python" (python_default w) = VStr s ->
  version_text s = true ->
  fst (set_keys w kwargs self) !! "CONDA_PY" = Some (VInt (concat_digits s))
  /\ exists flag : pyval,
       snd (PY3K (fst (set_keys w kwargs self))) = inr flag /\
       (truthy flag = true <-> 30 <= concat_digits s).
Proof.
  intros Henv Htext.
  pose proof (set_keys_conda_py w kwargs self s _ Henv
                (int_of_version_text s Htext)) as Hpy.
  split; [exact Hpy |].
  exists (VInt (if 30 <=? concat_digits s then 1 else 0)).
  rewrite (PY3K_run _ _ Hpy). split; [reflexivity |].
  destruct (Z.leb_spec 30 (concat_digits s)); simpl; split;
    intros; (lia || congruence).
Qed.

Lemma primary_version_normalized_witness :
  env posix_world {[ "python" := VStr "3.10" ]} "python"
    (python_default posix_world) = VStr "3.10" /\
  version_text "3.10" = true /\
  concat_digits "3.10" = 310 /\
  fst (set_keys posix_world {[ "python" := VStr "3.10" ]} ∅) !! "CONDA_PY"
  = Some (VInt (concat_digits "3.10")).
Proof.
  assert (Henv : env posix_world {[ "python" := VStr "3.10" ]} "python"
                   (python_default posix_world) = VStr "3.10")
    by (vm_compute; reflexivity).
  assert (Htext : version_text "3.10" = true) by reflexivity.
  split; [exact Henv | split; [exact Htext | split; [reflexivity |]]].
  exact (proj1 (primary_version_normalized posix_world
                  {[ "python" := VStr "3.10" ]} ∅ "3.10" Henv Htext)).
Defined.

Example py3k_of_versions :
  snd (PY3K (fst (Config_init posix_world {[ "python" := VStr "3.10" ]})))
  = inr (VInt 1) /\
  snd (PY3K (fst (Config_init posix_world {[ "python" := VStr "2.7" ]})))
  = inr (VInt 0) /\
  fst (Config_init posix_world ∅) !! "CONDA_PY" = Some (VInt 35).
Proof. vm_compute. repeat split; reflexivity. Qed.

(** ** The cache root *)

Lemma append_empty_r (s : string) : s +:+ "" = s.
Proof.
  induction s as [|c s IH]; [reflexivity |].
  rewrite append_cons. now rewrite IH.
Qed.

Lemma append_assoc (s t u : string) : (s +:+ t) +:+ u = s +:+ (t +:+ u).
Proof.
  induction s as [|c s IH]; [reflexivity |].
  rewrite !append_cons. now rewrite IH.
Qed.

Lemma append_nonempty_r (s t : string) : t <> "" -> s +:+ t <> "".
Proof.
  intros Ht E. apply (f_equal String.length) in E.
  rewrite length_append in E. destruct t; [congruence | simpl in E; lia].
Qed.

Lemma endswith_append_slash (s : string) :
  pystr.endswith (s +:+ "/") "/" = true.
Proof.
  induction s as [|c s IH]; [reflexivity |].
  rewrite append_cons. simpl.
  destruct (s +:+ "/") eqn:E; [| exact IH].
  destruct s; discriminate E.
Qed.

Lemma normpath_nonempty (p : string) : posixpath.normpath p <> "".
Proof.
  unfold posixpath.normpath.
  destruct (String.eqb p ""); [discriminate |].
  match goal with
  | |- (if String.eqb ?x "" then _ else _) <> _ =>
      destruct (String.eqb_spec x ""); [discriminate | assumption]
  end.
Qed.

Lemma croot_chain_truthy (w : World) : truthy (VStr (croot_chain w)) = true.
Proof.
  assert (H : croot_chain w <> "").
  { unfold croot_chain, abspath, posixpath.abspath.
    destruct (getenv w "CONDA_BLD_PATH") as [[|c e]|];
      try apply normpath_nonempty;
      (destruct (cc_rc_root_dir w) as [[|c' r]|];
       try apply normpath_nonempty;
       (destruct (cc_root_writable w); [| apply normpath_nonempty];
        unfold posixpath.join; simpl;
        destruct (_ || _); apply append_nonempty_r; discriminate)). }
  simpl. now destruct (String.eqb_spec (croot_chain w) "").
Qed.

(** One access to [croot]: a truthy cached value is returned as it is;
    otherwise the chain is run and its result stored. *)
Lemma croot_run (w : World) (self : Config) (c : pyval) :
  self !! "_croot" = Some c ->
  croot w self
  = if truthy c then (self, inr c)
    else (<["_croot" := VStr (croot_chain w)]> self,
          inr (VStr (croot_chain w))).
Proof.
  intros H. unfold croot, bind, getattr. rewrite H.
  destruct (truthy c); simpl; [now rewrite H |].
  unfold croot_chain, setattr.
  destruct (getenv w "CONDA_BLD_PATH") as [[|ch e]|]; simpl;
    try (now rewrite lookup_insert_eq);
    (destruct (cc_rc_root_dir w) as [[|ch' r]|]; simpl;
     try (now rewrite lookup_insert_eq);
     (destruct (cc_root_writable w); simpl; now rewrite lookup_insert_eq)).
Qed.

Lemma croot_frame (w : World) (self : Config) (name : string) :
  name <> "_croot" -> fst (croot w self) !! name = self !! name.
Proof.
  intros Hne. destruct (self !! "_croot") as [c|] eqn:E.
  - rewrite (croot_run w self c E). destruct (truthy c); simpl;
      [reflexivity | now rewrite lookup_insert_ne].
  - unfold croot, bind, getattr. now rewrite E.
Qed.

(** Once an access has returned, every later access returns the same
    value and leaves the object alone, whatever the environment is by
    then. *)
Lemma croot_cached (w w' : World) (self self' : Config) (v : pyval) :
  croot w self = (self', inr v) -> croot w' self' = (self', inr v).
Proof.
  intros H. destruct (self !! "_croot") as [c|] eqn:E.
  - rewrite (croot_run w self c E) in H.
    destruct (truthy c) eqn:Ht.
    + injection H as <- <-. now rewrite (croot_run w' self c E), Ht.
    + injection H as <- <-.
      rewrite (croot_run w' _ (VStr (croot_chain w)))
        by apply lookup_insert_eq.
      now rewrite croot_chain_truthy.
  - unfold croot, bind, getattr in H. rewrite E in H. discriminate.
Qed.

(** C4, as the code has it.  A truthy cached or explicitly given croot
    is returned exactly as it was given, without expansion; otherwise the
    first access runs the chain (build path variable, [root-dir] setting,
    writable install root, home directory), stores the result and returns
    it; later accesses return the stored value; and after the croot is
    set to [None] the next access runs the whole chain again. *)
Theorem croot_resolution (w : World) (self : Config) (c : pyval) :
  self !! "_croot" = Some c ->
  (truthy c = true -> croot w self = (self, inr c)) /\
  (truthy c = false ->
   croot w self = (<["_croot" := VStr (croot_chain w)]> self,
                   inr (VStr (croot_chain w)))) /\
  (forall w' : World,
      croot w' (fst (croot w self))
      = (fst (croot w self), snd (croot w self))) /\
  (forall w' : World,
      croot w' (fst (set_croot VNone (fst (croot w self))))
      = (<["_croot" := VStr (croot_chain w')]> (fst (croot w self)),
         inr (VStr (croot_chain w')))).
Proof.
  intros H. pose proof (croot_run w self c H) as Hrun.
  repeat split.
  - intros Ht. now rewrite Hrun, Ht.
  - intros Ht. now rewrite Hrun, Ht.
  - intros w'. destruct (croot w self) as [self' [e|v]] eqn:E.
    + destruct (truthy c); discriminate Hrun.
    + simpl. exact (croot_cached w w' self self' v E).
  - intros w'. unfold set_croot, setattr. simpl.
    rewrite (croot_run w' _ VNone) by apply lookup_insert_eq. simpl.
    now rewrite insert_insert_eq.
Qed.

Lemma croot_resolution_witness :
  fst (Config_init posix_world ∅) !! "_croot" = Some VNone /\
  croot posix_world (fst (Config_init posix_world ∅))
  = (<["_croot" := VStr (croot_chain posix_world)]>
       (fst (Config_init posix_world ∅)),
     inr (VStr (croot_chain posix_world))) /\
  croot_chain posix_world = "/home/u/conda-bld".
Proof.
  assert (H : fst (Config_init posix_world ∅) !! "_croot" = Some VNone)
    by (vm_compute; reflexivity).
  split; [exact H | split; [| reflexivity]].
  exact (proj1 (proj2 (croot_resolution posix_world _ VNone H)) eq_refl).
Defined.

(** C4, as stated, fails on the explicit value: it is not expanded. *)
Lemma explicit_croot_not_expanded :
  snd (croot posix_world
         (fst (Config_init posix_world {[ "croot" := VStr "~/bld" ]})))
  = inr (VStr "~/bld") /\
  abspath posix_world (expanduser posix_world "~/bld") = "/home/u/bld" /\
  posixpath.isabs "~/bld" = false.
Proof. vm_compute. repeat split; reflexivity. Qed.

Example croot_chain_branches :
  croot_chain
    {| environ := {[ "CONDA_BLD_PATH" := "~/b/../cache" ]};
       getcwd := "/work"; pw_dir := "/home/u"; pw_nam := fun _ => None;
       version_info := (2, 7)%nat; cc_rc_root_dir := Some "rc-root";
       cc_root_writable := true; cc_root_dir := "/opt/conda";
       cc_subdir := "osx-64"; cc_binstar_upload := VBool false |}
  = "/home/u/cache" /\
  croot_chain
    {| environ := {[ "CONDA_BLD_PATH" := "" ]};
       getcwd := "/work"; pw_dir := "/home/u"; pw_nam := fun _ => None;
       version_info := (2, 7)%nat; cc_rc_root_dir := Some "rc-root";
       cc_root_writable := true; cc_root_dir := "/opt/conda";
       cc_subdir := "osx-64"; cc_binstar_upload := VBool false |}
  = "/work/rc-root" /\
  croot_chain
    {| environ := ∅;
       getcwd := "/work"; pw_dir := "/home/u"; pw_nam := fun _ => None;
       version_info := (2, 7)%nat; cc_rc_root_dir := None;
       cc_root_writable := true; cc_root_dir := "/opt/conda";
       cc_subdir := "osx-64"; cc_binstar_upload := VBool false |}
  = "/opt/conda/conda-bld".
Proof. vm_compute. repeat split; reflexivity. Qed.

(** ** The directory layout *)

Lemma join_empty (c : string) :
  join c "" = if String.eqb c "" || pystr.endswith c "/" then c else c +:+ "/".
Proof.
  unfold posixpath.join. simpl.
  destruct (String.eqb c "" || pystr.endswith c "/");
    [apply append_empty_r | reflexivity].
Qed.

(** Joining through an empty component is joining directly. *)
Lemma join_join_empty (c x : string) : join (join c "") x = join c x.
Proof.
  rewrite join_empty. unfold posixpath.join.
  destruct (pystr.startswith x "/"); [reflexivity |].
  destruct (String.eqb c "" || pystr.endswith c "/") eqn:E.
  - now rewrite E.
  - rewrite endswith_append_slash, orb_true_r. apply append_assoc.
Qed.

Lemma join_plain (c x : string) :
  c <> "" -> pystr.endswith c "/" = false -> pystr.startswith x "/" = false ->
  join c x = c +:+ "/" +:+ x.
Proof.
  intros Hc He Hx. unfold posixpath.join. rewrite Hx, He.
  now destruct (String.eqb_spec c "").
Qed.

Lemma build_folder_run (w : World) (self self' : Config) (c b : string) :
  croot w self = (self', inr (VStr c)) ->
  self !! "_build_id" = Some (VStr b) ->
  build_folder w self = (self', inr (join c b)).
Proof.
  intros Hc Hb. unfold build_folder, bind. rewrite Hc.
  unfold build_id, getattr.
  assert (Hb' : self' !! "_build_id" = Some (VStr b)).
  { replace self' with (fst (croot w self)) by now rewrite Hc.
    now rewrite croot_frame by discriminate. }
  now rewrite Hb'.
Qed.

(** [build_prefix] is the placeholder algorithm run on the stub below
    the build folder. *)
Lemma build_prefix_run (w : World) (self self' : Config) (folder : string)
      (L : Z) :
  build_folder w self = (self', inr folder) ->
  self' !! "_prefix_length" = Some (VInt L) ->
  build_prefix w self
  = (self', inr (placeholder_path (join folder "_build_env") L)).
Proof.
  intros Hf Hl. unfold build_prefix, bind. rewrite Hf.
  unfold prefix_length, getattr. now rewrite Hl.
Qed.

(** C8, as the code has it.  [build_id] is the empty string after a
    completed [set_keys] that does not give it; with an empty [build_id]
    the build folder is [join(croot, "")], that is croot followed by one
    separator unless croot already ends with one, and the test prefix,
    the work directory, the test directory and the stub of the build
    prefix are the paths of those names directly under croot. *)
Theorem build_folder_without_build_id (w : World) (self self' : Config)
        (c : string) :
  croot w self = (self', inr (VStr c)) ->
  self !! "_build_id" = Some (VStr "") ->
  build_folder w self = (self', inr (join c "")) /\
  join c ""
  = (if String.eqb c "" || pystr.endswith c "/" then c else c +:+ "/") /\
  test_prefix w self = (self', inr (join c "_test_env")) /\
  work_dir w self = (self', inr (join c "work")) /\
  test_dir w self = (self', inr (join c "test_tmp")) /\
  (forall L : Z,
      self !! "_prefix_length" = Some (VInt L) ->
      build_prefix w self
      = (self', inr (placeholder_path (join c "_build_env") L))) /\
  (forall (kwargs : Kwargs) (before after : Config),
      kwargs !! "build_id" = None ->
      set_keys w kwargs before = (after, inr tt) ->
      build_id after = (after, inr (VStr ""))).
Proof.
  intros Hc Hb.
  pose proof (build_folder_run w self self' c "" Hc Hb) as Hf.
  repeat split.
  - exact Hf.
  - apply join_empty.
  - unfold test_prefix, bind. rewrite Hf. unfold ret.
    now rewrite join_join_empty.
  - unfold work_dir, bind. rewrite Hf. unfold ret.
    now rewrite join_join_empty.
  - unfold test_dir, bind. rewrite Hf. unfold ret.
    now rewrite join_join_empty.
  - intros L Hl.
    rewrite (build_prefix_run w self self' (join c "") L Hf).
    + now rewrite join_join_empty.
    + replace self' with (fst (croot w self)) by now rewrite Hc.
      now rewrite croot_frame by discriminate.
  - intros kwargs before after Hk Hrun.
    destruct (set_keys_identity w kwargs before after Hrun) as (Hid & _).
    unfold build_id, getattr. rewrite Hid. unfold kwargs_get.
    now rewrite Hk.
Qed.

(** A configuration built with an explicit croot and nothing else. *)
Lemma build_folder_without_build_id_witness :
  croot posix_world
    (fst (Config_init posix_world {[ "croot" := VStr "/tmp/bld" ]}))
  = (fst (Config_init posix_world {[ "croot" := VStr "/tmp/bld" ]}),
     inr (VStr "/tmp/bld")) /\
  fst (Config_init posix_world {[ "croot" := VStr "/tmp/bld" ]})
    !! "_build_id" = Some (VStr "") /\
  work_dir posix_world
    (fst (Config_init posix_world {[ "croot" := VStr "/tmp/bld" ]}))
  = (fst (Config_init posix_world {[ "croot" := VStr "/tmp/bld" ]}),
     inr (join "/tmp/bld" "work")).
Proof.
  assert (Hc : croot posix_world
                 (fst (Config_init posix_world {[ "croot" := VStr "/tmp/bld" ]}))
               = (fst (Config_init posix_world
                         {[ "croot" := VStr "/tmp/bld" ]}),
                  inr (VStr "/tmp/bld"))).
  { rewrite (croot_run posix_world _ (VStr "/tmp/bld"))
      by (vm_compute; reflexivity).
    reflexivity. }
  assert (Hb : fst (Config_init posix_world {[ "croot" := VStr "/tmp/bld" ]})
                 !! "_build_id" = Some (VStr ""))
    by (vm_compute; reflexivity).
  split; [exact Hc | split; [exact Hb |]].
  exact (proj1 (proj2 (proj2 (proj2
           (build_folder_without_build_id posix_world _ _ "/tmp/bld"
              Hc Hb))))).
Defined.

(** C8, as stated, fails on string equality: with an empty [build_id]
    the build folder is croot with a trailing separator. *)
Lemma build_folder_trailing_separator :
  fst (Config_init posix_world {[ "croot" := VStr "/tmp/bld" ]})
    !! "_build_id" = Some (VStr "") /\
  snd (croot posix_world
         (fst (Config_init posix_world {[ "croot" := VStr "/tmp/bld" ]})))
  = inr (VStr "/tmp/bld") /\
  snd (build_folder posix_world
         (fst (Config_init posix_world {[ "croot" := VStr "/tmp/bld" ]})))
  = inr "/tmp/bld/".
Proof. vm_compute. repeat split; reflexivity. Qed.

Example build_folder_with_build_id :
  snd (build_folder posix_world
         (fst (Config_init posix_world
                 {[ "croot" := VStr "/tmp/bld";
                    "build_id" := VStr "foo-1.0-123456" ]})))
  = inr "/tmp/bld/foo-1.0-123456" /\
  snd (test_dir posix_world
         (fst (Config_init posix_world
                 {[ "croot" := VStr "/tmp/bld";
                    "build_id" := VStr "foo-1.0-123456" ]})))
  = inr "/tmp/bld/foo-1.0-123456/test_tmp" /\
  snd (build_prefix posix_world
         (fst (Config_init posix_world
                 {[ "croot" := VStr "/tmp/bld";
                    "build_id" := VStr "foo-1.0-123456" ]})))
  = inr ("/tmp/bld/foo-1.0-123456/_build_env_placehold_placehold_placehold"
         +:+ "_placehold_place").
Proof. vm_compute. repeat split; reflexivity. Qed.

(** C9.  [bldpkgs_dir] is [join(croot, "noarch")] when the noarch flag
    is truthy and [join(croot, subdir)] otherwise; [bldpkgs_dirs] is the
    pair of both paths whatever the flag.  For a croot that does not end
    with a separator these are croot/noarch and croot/subdir letter for
    letter. *)
Theorem bldpkgs_layout (w : World) (self self' : Config) (c : string)
        (flag : pyval) :
  croot w self = (self', inr (VStr c)) ->
  self !! "noarch" = Some flag ->
  bldpkgs_dir w self
  = (self', inr (join c (if truthy flag then "noarch" else cc_subdir w))) /\
  bldpkgs_dirs w self
  = (self', inr (join c (cc_subdir w), join c "noarch")) /\
  (c <> "" -> pystr.endswith c "/" = false ->
   join c "noarch" = c +:+ "/noarch" /\
   (pystr.startswith (cc_subdir w) "/" = false ->
    join c (cc_subdir w) = c +:+ "/" +:+ cc_subdir w)).
Proof.
  intros Hc Hn. repeat split.
  - unfold bldpkgs_dir, bind, getattr. rewrite Hn.
    destruct (truthy flag); now rewrite Hc.
  - unfold bldpkgs_dirs, bind. rewrite Hc. simpl.
    now rewrite (croot_cached w w self self' (VStr c) Hc).
  - now apply join_plain.
  - now apply join_plain.
Qed.

Lemma bldpkgs_layout_witness :
  croot posix_world
    (fst (Config_init posix_world {[ "noarch" := VBool true ]}))
  = (<["_croot" := VStr "/home/u/conda-bld"]>
       (fst (Config_init posix_world {[ "noarch" := VBool true ]})),
     inr (VStr "/home/u/conda-bld")) /\
  fst (Config_init posix_world {[ "noarch" := VBool true ]}) !! "noarch"
  = Some (VBool true) /\
  snd (bldpkgs_dir posix_world
         (fst (Config_init posix_world {[ "noarch" := VBool true ]})))
  = inr "/home/u/conda-bld/noarch" /\
  snd (bldpkgs_dirs posix_world
         (fst (Config_init posix_world {[ "noarch" := VBool true ]})))
  = inr ("/home/u/conda-bld/linux-64", "/home/u/conda-bld/noarch").
Proof.
  assert (Hc : croot posix_world
                 (fst (Config_init posix_world {[ "noarch" := VBool true ]}))
               = (<["_croot" := VStr "/home/u/conda-bld"]>
                    (fst (Config_init posix_world
                            {[ "noarch" := VBool true ]})),
                  inr (VStr "/home/u/conda-bld"))).
  { rewrite (croot_run posix_world _ VNone) by (vm_compute; reflexivity).
    reflexivity. }
  assert (Hn : fst (Config_init posix_world {[ "noarch" := VBool true ]})
                 !! "noarch" = Some (VBool true))
    by (vm_compute; reflexivity).
  split; [exact Hc | split; [exact Hn |]].
  destruct (bldpkgs_layout posix_world _ _ "/home/u/conda-bld"
              (VBool true) Hc Hn) as (H1 & H2 & _).
  rewrite H1, H2. split; reflexivity.
Defined.

(** * Further properties *)

(** ** The placeholder algorithm on any length *)

Lemma ltb_irrefl (s : string) : String.ltb s s = false.
Proof.
  rewrite <- (take_all (String.length s) s) at 2 by lia. apply ltb_take.
Qed.

Lemma placeholder_path_shape (stub : string) (L : Z) :
  exists n k : nat,
    placeholder_path stub L
    = stub +:+ pystr.take k (pystr.repeat n "_placehold").
Proof.
  unfold placeholder_path, pystr.mul.
  set (n := Z.to_nat (ceil_div (L - pystr.len stub)
                        (pystr.len "_placehold") + 1)).
  set (pad := pystr.repeat n "_placehold").
  assert (Hslice : exists m : nat,
             pystr.slice_to (stub +:+ pad) L = pystr.take m (stub +:+ pad)).
  { unfold pystr.slice_to. destruct (0 <=? L); eauto. }
  destruct Hslice as [m ->].
  destruct (Nat.le_gt_cases m (String.length stub)) as [Hle | Hgt].
  - exists 0%nat, 0%nat. rewrite take_append_le by exact Hle.
    unfold pystr.max. rewrite ltb_take. simpl. now rewrite append_empty_r.
  - exists n, (m - String.length stub)%nat.
    rewrite take_append_ge by lia. fold pad.
    unfold pystr.max.
    destruct (pystr.take (m - String.length stub) pad) as [|c t] eqn:E.
    + now rewrite append_empty_r, ltb_irrefl.
    + now rewrite ltb_proper_extension by discriminate.
Qed.

(** X1.  Whatever the target length is, also zero or negative, the
    result of the placeholder algorithm is the stub followed by a
    (possibly empty) beginning of the repeated token: the stub is never
    cut and nothing but the token is added. *)
Theorem placeholder_path_extends_stub (stub : string) (L : Z) :
  exists n k : nat,
    placeholder_path stub L
    = stub +:+ pystr.take k (pystr.repeat n "_placehold")
    /\ (String.length stub
        <= String.length (placeholder_path stub L))%nat.
Proof.
  destruct (placeholder_path_shape stub L) as (n & k & H).
  exists n, k. split; [exact H |].
  rewrite H, length_append. lia.
Qed.

(** For a stub shorter than the target, the padded path in full. *)
Lemma placeholder_path_padded (stub : string) (L : Z) :
  pystr.len stub < L ->
  placeholder_path stub L
  = stub +:+ pystr.take (Z.to_nat L - String.length stub)
               (pystr.repeat
                  (Z.to_nat (ceil_div (L - pystr.len stub) 10 + 1))
                  "_placehold")
  /\ pystr.len (placeholder_path stub L) = L.
Proof.
  intros Hlt. unfold placeholder_path, pystr.len in *.
  change (Z.of_nat (String.length "_placehold")) with 10.
  set (r := ceil_div (L - Z.of_nat (String.length stub)) 10 + 1).
  assert (Hr : L - Z.of_nat (String.length stub) + 10 <= 10 * r).
  { unfold r, ceil_div.
    pose proof (Z.mul_div_le (- (L - Z.of_nat (String.length stub))) 10).
    lia. }
  unfold pystr.slice_to, pystr.mul.
  replace (0 <=? L) with true by (symmetry; apply Z.leb_le; lia).
  rewrite take_append_ge by lia.
  assert (Hpad : pystr.take (Z.to_nat L - String.length stub)
                   (pystr.repeat (Z.to_nat r) "_placehold") <> "").
  { apply take_nonempty; [lia |].
    intros E. apply (f_equal String.length) in E.
    rewrite length_repeat in E. simpl in E. lia. }
  unfold pystr.max. rewrite ltb_proper_extension by exact Hpad.
  split; [reflexivity |].
  rewrite length_append, length_take, length_repeat. simpl String.length.
  lia.
Qed.

(** ** What a merge reads, writes and leaves alone *)

Lemma elem_of_concrete (name : string) (l : list string) :
  bool_decide (name ∈ l) = true -> name ∈ l.
Proof. apply bool_decide_eq_true_1. Qed.

Lemma not_elem_of_concrete (name : string) (l : list string) :
  bool_decide (name ∈ l) = false -> name ∉ l.
Proof. intros Hb Hin. apply bool_decide_eq_false in Hb. now apply Hb. Qed.

(** [set_keys] is a function of the recognized keys of the mapping. *)
Lemma set_keys_reads (w : World) (kw1 kw2 : Kwargs) (self : Config) :
  (forall key, key ∈ recognized_keys -> kw1 !! key = kw2 !! key) ->
  set_keys w kw1 self = set_keys w kw2 self.
Proof.
  intros Hk.
  assert (He : forall lang dflt,
             bool_decide (lang ∈ recognized_keys) = true ->
             env w kw1 lang dflt = env w kw2 lang dflt).
  { intros lang dflt Hb. rewrite !env_resolution.
    now rewrite (Hk lang (elem_of_concrete _ _ Hb)). }
  assert (Hg : forall key,
             bool_decide (key ∈ recognized_keys) = true ->
             kw1 !! key = kw2 !! key).
  { intros key Hb. exact (Hk key (elem_of_concrete _ _ Hb)). }
  unfold set_keys.
  rewrite (He "perl"), (He "lua"), (He "r"), (He "python") by reflexivity.
  unfold kwargs_get.
  rewrite (Hg "numpy"), (Hg "build_id"), (Hg "prefix_length"),
    (Hg "croot"), (Hg "use_long_build_prefix") by reflexivity.
  rewrite (for_each_ext (values w)
             (fun v => _set_attribute_from_kwargs kw1 (fst v) (snd v))
             (fun v => _set_attribute_from_kwargs kw2 (fst v) (snd v)));
    [reflexivity |].
  intros [name dflt] Hin. simpl.
  apply set_attribute_from_kwargs_ext, Hk.
  unfold recognized_keys. apply elem_of_app. right.
  apply elem_of_app. right.
  rewrite <- (setting_names_values w). apply list_elem_of_fmap.
  now exists (name, dflt).
Qed.

(** X2.  Keywords that [set_keys] does not know are ignored: two
    mappings that agree on the recognized keys give the same merge, same
    object and same outcome; in particular adding any other keyword
    changes nothing. *)
Theorem unknown_keywords_ignored (w : World) (kwargs : Kwargs)
        (self : Config) (key : string) (v : pyval) :
  key ∉ [ "perl"; "lua"; "r"; "python"; "numpy"; "build_id";
          "prefix_length"; "croot"; "use_long_build_prefix";
          "activate"; "anaconda_upload"; "channel_urls"; "dirty";
          "include_recipe"; "keep_old_work"; "noarch";
          "no_download_source"; "override_channels"; "skip_existing";
          "token"; "user"; "verbose" ] ->
  set_keys w (<[key := v]> kwargs) self = set_keys w kwargs self /\
  set_keys w (delete key kwargs) self = set_keys w kwargs self.
Proof.
  intros Hkey. change (key ∉ recognized_keys) in Hkey.
  split; apply set_keys_reads; intros k Hk;
    assert (key <> k) by (intros ->; contradiction).
  - now apply lookup_insert_ne.
  - now apply lookup_delete_ne.
Qed.

Lemma unknown_keywords_ignored_witness :
  set_keys posix_world (<["debug" := VBool true]> kwargs_build_id) ∅
  = set_keys posix_world kwargs_build_id ∅.
Proof.
  refine (proj1 (unknown_keywords_ignored posix_world kwargs_build_id ∅
                   "debug" (VBool true) _)).
  apply not_elem_of_concrete. vm_compute. reflexivity.
Defined.

(** Attributes outside the assigned ones are the same after the call,
    whether it returns or raises. *)
Lemma set_keys_frame (w : World) (kwargs : Kwargs) (self : Config)
      (name : string) :
  name ∉ assigned_attrs ->
  fst (set_keys w kwargs self) !! name = self !! name.
Proof.
  intros Hn. unfold assigned_attrs in Hn.
  apply not_elem_of_app in Hn as [Hv Hn].
  apply not_elem_of_app in Hn as [Hi Hs].
  pose proof (after_versions_other w kwargs self name Hv) as Hav.
  assert (Hpn : forall (a b : pyval) (base : Config),
             base !! name = self !! name ->
             <["CONDA_NPY" := a]> (<["CONDA_PY" := b]> base) !! name
             = self !! name).
  { intros a b base Hb. unfold version_attrs in Hv.
    repeat (apply not_elem_of_cons in Hv as [? Hv]).
    now rewrite !lookup_insert_ne by congruence. }
  assert (Hloop : forall mid : Config,
             mid !! name = self !! name ->
             fst (settings_loop w kwargs mid) !! name = self !! name).
  { intros mid Hm. rewrite settings_loop_identity by exact Hs.
    unfold after_identity, identity_attrs in *.
    repeat (apply not_elem_of_cons in Hi as [? Hi]).
    now rewrite !lookup_insert_ne by congruence. }
  rewrite set_keys_run.
  destruct (replace_dot (env w kwargs "python" (python_default w)))
    as [e|s]; [exact Hav |].
  destruct (py_int s) as [e|py]; [exact Hav |].
  cbv zeta.
  destruct (truthy (numpy_given w kwargs)).
  - destruct (replace_dot (numpy_given w kwargs)) as [e|t];
      [now apply Hpn |].
    destruct (py_int t) as [e|n]; [now apply Hpn |].
    apply Hloop. unfold version_attrs in Hv.
    repeat (apply not_elem_of_cons in Hv as [? Hv]).
    rewrite lookup_insert_ne by congruence. now apply Hpn.
  - apply Hloop. now apply Hpn.
Qed.

Ltac lookup_chain :=
  repeat (rewrite lookup_insert_eq
          || (rewrite lookup_insert_ne by discriminate)).

(** On a call that returns, the version attributes are decided by the
    mapping and the environment, not by what the object held. *)
Lemma set_keys_versions_indep (w : World) (kwargs : Kwargs)
      (self1 self2 : Config) (name : string) :
  snd (set_keys w kwargs self1) = inr tt ->
  name ∈ version_attrs ->
  fst (set_keys w kwargs self1) !! name
  = fst (set_keys w kwargs self2) !! name.
Proof.
  intros Hok Hin.
  assert (Hloop : forall mid : Config,
             fst (settings_loop w kwargs mid) !! name = mid !! name).
  { intros mid.
    rewrite settings_loop_identity
      by (unfold version_attrs in Hin; list_cases Hin; subst name;
          apply not_setting; reflexivity).
    unfold after_identity, version_attrs in *.
    list_cases Hin; subst name;
      now rewrite !lookup_insert_ne by discriminate. }
  rewrite !set_keys_run in *.
  destruct (replace_dot (env w kwargs "python" (python_default w)))
    as [e|s]; [discriminate Hok |].
  destruct (py_int s) as [e|py]; [discriminate Hok |].
  cbv zeta in *.
  destruct (truthy (numpy_given w kwargs)).
  - destruct (replace_dot (numpy_given w kwargs)) as [e|t];
      [discriminate Hok |].
    destruct (py_int t) as [e|n]; [discriminate Hok |].
    rewrite !Hloop. unfold after_versions, version_attrs in *.
    list_cases Hin; subst name; lookup_chain; reflexivity.
  - rewrite !Hloop. unfold after_versions, version_attrs in *.
    list_cases Hin; subst name; lookup_chain; reflexivity.
Qed.

Lemma elem_of_assigned (name : string) :
  name ∈ assigned_attrs ->
  name ∈ version_attrs \/ name ∈ identity_attrs \/ name ∈ setting_names.
Proof.
  unfold assigned_attrs. intros H.
  apply elem_of_app in H as [H | H]; [now left |].
  apply elem_of_app in H as [H | H]; [right; now left | right; now right].
Qed.

(** Two calls with the same mapping that both return end in the same
    object as soon as the objects they start from agree on what the call
    does not overwrite. *)
Lemma set_keys_agree (w : World) (kwargs : Kwargs)
      (self1 self2 after1 after2 : Config) :
  set_keys w kwargs self1 = (after1, inr tt) ->
  set_keys w kwargs self2 = (after2, inr tt) ->
  (forall name dflt,
      (name, dflt) ∈ values w ->
      kwargs_get kwargs name (default dflt (self1 !! name))
      = kwargs_get kwargs name (default dflt (self2 !! name))) ->
  (forall name, name ∉ assigned_attrs -> self1 !! name = self2 !! name) ->
  after1 = after2.
Proof.
  intros H1 H2 Hset Hrest. apply map_eq. intros name.
  destruct (decide (name ∈ assigned_attrs)) as [Hin | Hout].
  - apply elem_of_assigned in Hin as [Hv | [Hi | Hs]].
    + replace after1 with (fst (set_keys w kwargs self1)) by now rewrite H1.
      replace after2 with (fst (set_keys w kwargs self2)) by now rewrite H2.
      apply set_keys_versions_indep; [now rewrite H1 | exact Hv].
    + destruct (set_keys_identity w kwargs self1 after1 H1)
        as (Ha & Hb & Hc & Hd).
      destruct (set_keys_identity w kwargs self2 after2 H2)
        as (Ha' & Hb' & Hc' & Hd').
      unfold identity_attrs in Hi. list_cases Hi; subst name; congruence.
    + rewrite <- (setting_names_values w) in Hs.
      apply list_elem_of_fmap in Hs as [[n d] [-> Hin]]. simpl.
      rewrite (set_keys_setting w kwargs self1 after1 n d Hin H1).
      rewrite (set_keys_setting w kwargs self2 after2 n d Hin H2).
      f_equal. now apply Hset.
  - replace after1 with (fst (set_keys w kwargs self1)) by now rewrite H1.
    replace after2 with (fst (set_keys w kwargs self2)) by now rewrite H2.
    rewrite !set_keys_frame by exact Hout. now apply Hrest.
Qed.

(** X3.  A merge that returned can be repeated: [set_keys] with the same
    mapping on the resulting object returns again and leaves the object
    exactly as it is. *)
Theorem set_keys_idempotent (w : World) (kwargs : Kwargs)
        (self after : Config) :
  set_keys w kwargs self = (after, inr tt) ->
  set_keys w kwargs after = (after, inr tt).
Proof.
  intros Hrun.
  assert (Hok : snd (set_keys w kwargs after) = inr tt).
  { rewrite (set_keys_outcome_congr w kwargs kwargs after self)
      by reflexivity.
    now rewrite Hrun. }
  pose proof (set_keys_pair w kwargs after Hok) as Hrun2.
  rewrite Hrun2. f_equal.
  apply (set_keys_agree w kwargs after self _ _ Hrun2 Hrun).
  - intros name dflt Hin.
    rewrite (set_keys_setting w kwargs self after name dflt Hin Hrun).
    unfold kwargs_get. simpl. now destruct (kwargs !! name).
  - intros name Hout.
    replace after with (fst (set_keys w kwargs self)) by now rewrite Hrun.
    now apply set_keys_frame.
Qed.

Lemma set_keys_idempotent_witness :
  set_keys posix_world kwargs_build_id ∅ = (config_with_build_id, inr tt) /\
  set_keys posix_world kwargs_build_id config_with_build_id
  = (config_with_build_id, inr tt).
Proof.
  assert (H : set_keys posix_world kwargs_build_id ∅
              = (config_with_build_id, inr tt)).
  { apply set_keys_pair. vm_compute. reflexivity. }
  split; [exact H |].
  exact (set_keys_idempotent posix_world kwargs_build_id ∅ _ H).
Defined.

(** X4.  When the default construction [Config()] returns,
    [get_or_merge_config(None, kwargs)] has the outcome of
    [Config(kwargs)], and the same object whenever that outcome is a
    normal return; when [Config()] raises, it raises that exception
    whatever the mapping holds. *)
Theorem get_or_merge_config_none (w : World) (kwargs : Kwargs) :
  (forall fresh : Config,
      Config_init w ∅ = (fresh, inr tt) ->
      snd (get_or_merge_config w None kwargs) = snd (Config_init w kwargs) /\
      (snd (Config_init w kwargs) = inr tt ->
       get_or_merge_config w None kwargs = Config_init w kwargs)) /\
  (forall (partial : Config) (e : exn),
      Config_init w ∅ = (partial, inl e) ->
      get_or_merge_config w None kwargs = (partial, inl e)).
Proof.
  split.
  - intros fresh Hinit. unfold get_or_merge_config. rewrite Hinit.
    destruct (Nat.eqb (size kwargs) 0) eqn:E.
    + apply Nat.eqb_eq, map_size_empty_iff in E. subst kwargs.
      rewrite Hinit. split; reflexivity.
    + unfold Config_init in *.
      assert (Hsnd : snd (set_keys w kwargs fresh)
                     = snd (set_keys w kwargs ∅))
        by (now apply set_keys_outcome_congr).
      split; [exact Hsnd |]. intros Hok.
      rewrite (set_keys_pair w kwargs ∅ Hok).
      assert (Hok' : snd (set_keys w kwargs fresh) = inr tt)
        by now rewrite Hsnd.
      rewrite (set_keys_pair w kwargs fresh Hok'). f_equal.
      apply (set_keys_agree w kwargs fresh ∅ _ _
               (set_keys_pair w kwargs fresh Hok')
               (set_keys_pair w kwargs ∅ Hok)).
      * intros name dflt Hin.
        rewrite (set_keys_setting w ∅ ∅ fresh name dflt Hin Hinit).
        unfold kwargs_get. now rewrite !lookup_empty.
      * intros name Hout.
        replace fresh with (fst (set_keys w ∅ ∅)) by now rewrite Hinit.
        now apply set_keys_frame.
  - intros partial e Hinit. unfold get_or_merge_config. now rewrite Hinit.
Qed.

Lemma get_or_merge_config_none_witness :
  Config_init posix_world ∅ = (fst (Config_init posix_world ∅), inr tt) /\
  snd (Config_init posix_world kwargs_build_id) = inr tt /\
  get_or_merge_config posix_world None kwargs_build_id
  = Config_init posix_world kwargs_build_id.
Proof.
  assert (H0 : Config_init posix_world ∅
               = (fst (Config_init posix_world ∅), inr tt)).
  { apply set_keys_pair. vm_compute. reflexivity. }
  assert (H1 : snd (Config_init posix_world kwargs_build_id) = inr tt)
    by (vm_compute; reflexivity).
  split; [exact H0 | split; [exact H1 |]].
  exact (proj2 (proj1 (get_or_merge_config_none posix_world kwargs_build_id)
                  _ H0) H1).
Defined.

(** A malformed [CONDA_PY] in the environment makes the default
    construction raise, and with it [get_or_merge_config(None, ...)],
    although the constructor given the same override returns. *)
Example get_or_merge_config_none_raises :
  snd (get_or_merge_config
         {| environ := {[ "CONDA_PY" := "abc" ]};
            getcwd := "/work"; pw_dir := "/home/u"; pw_nam := fun _ => None;
            version_info := (3, 5)%nat; cc_rc_root_dir := None;
            cc_root_writable := true; cc_root_dir := "/opt/conda";
            cc_subdir := "linux-64"; cc_binstar_upload := VBool false |}
         None {[ "python" := VStr "3.5" ]})
  = inl ValueError /\
  snd (Config_init
         {| environ := {[ "CONDA_PY" := "abc" ]};
            getcwd := "/work"; pw_dir := "/home/u"; pw_nam := fun _ => None;
            version_info := (3, 5)%nat; cc_rc_root_dir := None;
            cc_root_writable := true; cc_root_dir := "/opt/conda";
            cc_subdir := "linux-64"; cc_binstar_upload := VBool false |}
         {[ "python" := VStr "3.5" ]})
  = inr tt.
Proof. vm_compute. split; reflexivity. Qed.

(** X5.  A merge that raises on the python version has already
    overwritten [CONDA_PERL], [CONDA_LUA] and [CONDA_R] and has touched
    nothing else: the build identity, the prefix length, the croot and
    the settings keep the values they had, and [CONDA_PY] is not
    assigned. *)
Theorem failed_merge_partial_update (w : World) (kwargs : Kwargs)
        (self : Config) (s : string) :
  env w kwargs "python" (python_default w) = VStr s ->
  malformed s = true ->
  snd (set_keys w kwargs self) = inl ValueError /\
  fst (set_keys w kwargs self) !! "CONDA_PERL"
  = Some (env w kwargs "perl" "5.18.2") /\
  fst (set_keys w kwargs self) !! "CONDA_LUA"
  = Some (env w kwargs "lua" "5.2") /\
  fst (set_keys w kwargs self) !! "CONDA_R"
  = Some (env w kwargs "r" "3.2.2") /\
  (forall name : string,
      name ∉ [ "CONDA_PERL"; "CONDA_LUA"; "CONDA_R" ] ->
      fst (set_keys w kwargs self) !! name = self !! name).
Proof.
  intros Henv Hbad.
  destruct (set_keys_plain_versions w kwargs self) as (Hp & Hl & Hr).
  assert (Hrun : set_keys w kwargs self
                 = (after_versions w kwargs self, inl ValueError)).
  { rewrite set_keys_run, Henv. simpl. unfold py_int.
    now rewrite (malformed_rejected s Hbad). }
  repeat split; try assumption.
  - now rewrite Hrun.
  - intros name Hn. rewrite Hrun. simpl. unfold after_versions.
    repeat (apply not_elem_of_cons in Hn as [? Hn]).
    now rewrite !lookup_insert_ne by congruence.
Qed.

Lemma failed_merge_partial_update_witness :
  env posix_world {[ "python" := VStr "3.5rc1" ]} "python"
    (python_default posix_world) = VStr "3.5rc1" /\
  malformed "3.5rc1" = true /\
  snd (set_keys posix_world {[ "python" := VStr "3.5rc1" ]}
         config_with_build_id) = inl ValueError /\
  fst (set_keys posix_world {[ "python" := VStr "3.5rc1" ]}
         config_with_build_id) !! "_build_id"
  = config_with_build_id !! "_build_id".
Proof.
  assert (Henv : env posix_world {[ "python" := VStr "3.5rc1" ]} "python"
                   (python_default posix_world) = VStr "3.5rc1")
    by (vm_compute; reflexivity).
  assert (Hbad : malformed "3.5rc1" = true) by reflexivity.
  destruct (failed_merge_partial_update posix_world
              {[ "python" := VStr "3.5rc1" ]} config_with_build_id
              "3.5rc1" Henv Hbad) as (H1 & _ & _ & _ & H5).
  split; [exact Henv | split; [exact Hbad | split; [exact H1 |]]].
  apply H5. apply not_elem_of_concrete. vm_compute. reflexivity.
Defined.

(** ** The numpy version *)

Lemma set_keys_conda_npy (w : World) (kwargs : Kwargs)
      (self after : Config) :
  set_keys w kwargs self = (after, inr tt) ->
  (truthy (numpy_given w kwargs) = false ->
   after !! "CONDA_NPY" = Some (numpy_given w kwargs)) /\
  (truthy (numpy_given w kwargs) = true ->
   exists (s : string) (n : Z),
     numpy_given w kwargs = VStr s /\
     pyint.of_string (pystr.remove "." s) = Some n /\
     after !! "CONDA_NPY" = Some (if n =? 0 then VNone else VInt n)).
Proof.
  rewrite set_keys_run. intros H.
  assert (Hloop : forall (mid : Config) (v : pyval),
             mid !! "CONDA_NPY" = Some v ->
             fst (settings_loop w kwargs mid) !! "CONDA_NPY" = Some v).
  { intros mid v Hm.
    rewrite settings_loop_identity by (apply not_setting; reflexivity).
    unfold after_identity. now rewrite !lookup_insert_ne by discriminate. }
  destruct (replace_dot (env w kwargs "python" (python_default w)))
    as [e|s]; [discriminate |].
  destruct (py_int s) as [e|py]; [discriminate |].
  cbv zeta in H.
  destruct (truthy (numpy_given w kwargs)) eqn:Ht.
  - split; [discriminate |]. intros _.
    destruct (numpy_given w kwargs) as [| | |t| |] eqn:Eg;
      try discriminate H.
    simpl in H. unfold py_int in H.
    destruct (pyint.of_string (pystr.remove "." t)) as [n|] eqn:En;
      [| discriminate].
    exists t, n. repeat split; [exact En |].
    replace after with (fst (settings_loop w kwargs
      (<["CONDA_NPY" := if n =? 0 then VNone else VInt n]>
         (<["CONDA_NPY" := VStr t]>
            (<["CONDA_PY" := VInt py]> (after_versions w kwargs self))))))
      by now rewrite H.
    apply Hloop. apply lookup_insert_eq.
  - split; [| discriminate]. intros _.
    replace after with (fst (settings_loop w kwargs
      (<["CONDA_NPY" := numpy_given w kwargs]>
         (<["CONDA_PY" := VInt py]> (after_versions w kwargs self)))))
      by now rewrite H.
    apply Hloop. apply lookup_insert_eq.
Qed.

(** X6.  After a merge that returns, [CONDA_NPY] is never a non-empty
    string: a falsy given value is kept as it is, and an explicit falsy override
    such as [None] is kept even when [CONDA_NPY] is set in the
    environment; a version text made of digits and dots is replaced by
    its digits read as an integer, and by [None] when that integer is
    zero. *)
Theorem numpy_resolution (w : World) (kwargs : Kwargs)
        (self after : Config) :
  set_keys w kwargs self = (after, inr tt) ->
  (forall v : pyval,
      kwargs !! "numpy" = Some v -> truthy v = false ->
      after !! "CONDA_NPY" = Some v) /\
  (kwargs !! "numpy" = None ->
   (getenv w "CONDA_NPY" = None \/ getenv w "CONDA_NPY" = Some "") ->
   truthy (default VNone (after !! "CONDA_NPY")) = false) /\
  (forall s : string,
      numpy_given w kwargs = VStr s -> version_text s = true ->
      after !! "CONDA_NPY"
      = Some (if concat_digits s =? 0 then VNone
              else VInt (concat_digits s))) /\
  (forall s : string, after !! "CONDA_NPY" <> Some (VStr s) \/ s = "").
Proof.
  intros Hrun.
  destruct (set_keys_conda_npy w kwargs self after Hrun) as [Hf Ht].
  repeat split.
  - intros v Hk Hv.
    assert (Hg : numpy_given w kwargs = v)
      by (unfold numpy_given, kwargs_get; now rewrite Hk).
    rewrite <- Hg. apply Hf. now rewrite Hg.
  - intros Hk Henv.
    assert (Hg : truthy (numpy_given w kwargs) = false).
    { unfold numpy_given, kwargs_get. rewrite Hk. simpl.
      destruct Henv as [-> | ->]; reflexivity. }
    now rewrite (Hf Hg).
  - intros s Hg Htext.
    assert (Htr : truthy (numpy_given w kwargs) = true).
    { rewrite Hg. simpl. destruct s; [discriminate Htext | reflexivity]. }
    destruct (Ht Htr) as (s' & n & Hs' & Hn & Ha).
    rewrite Hg in Hs'. injection Hs' as <-.
    rewrite (int_of_version_text s Htext) in Hn. injection Hn as <-.
    exact Ha.
  - intros s.
    destruct (truthy (numpy_given w kwargs)) eqn:Htr.
    + destruct (Ht eq_refl) as (s' & n & _ & _ & Ha). left. rewrite Ha.
      destruct (n =? 0); discriminate.
    + rewrite (Hf eq_refl).
      destruct (numpy_given w kwargs) as [| | |t| |] eqn:Eg;
        try (left; discriminate).
      simpl in Htr. destruct (String.eqb_spec t ""); [| discriminate].
      subst t. destruct s; [now right | left; discriminate].
Qed.

Lemma numpy_resolution_witness :
  set_keys posix_world {[ "numpy" := VStr "1.11" ]} ∅
  = (fst (set_keys posix_world {[ "numpy" := VStr "1.11" ]} ∅), inr tt) /\
  numpy_given posix_world {[ "numpy" := VStr "1.11" ]} = VStr "1.11" /\
  version_text "1.11" = true /\
  fst (set_keys posix_world {[ "numpy" := VStr "1.11" ]} ∅) !! "CONDA_NPY"
  = Some (if concat_digits "1.11" =? 0 then VNone
          else VInt (concat_digits "1.11")).
Proof.
  assert (Hrun : set_keys posix_world {[ "numpy" := VStr "1.11" ]} ∅
                 = (fst (set_keys posix_world {[ "numpy" := VStr "1.11" ]} ∅),
                    inr tt)).
  { apply set_keys_pair. vm_compute. reflexivity. }
  assert (Hg : numpy_given posix_world {[ "numpy" := VStr "1.11" ]}
               = VStr "1.11") by (vm_compute; reflexivity).
  assert (Ht : version_text "1.11" = true) by reflexivity.
  split; [exact Hrun | split; [exact Hg | split; [exact Ht |]]].
  exact (proj1 (proj2 (proj2 (numpy_resolution posix_world
                  {[ "numpy" := VStr "1.11" ]} ∅ _ Hrun))) "1.11" Hg Ht).
Defined.

(** ** Compiler and interpreter flags *)

(** X7.  [get_conda_py], [use_MSVC2015] and [PY3K] read [CONDA_PY]
    without changing the object; [use_MSVC2015] is the test [>= 35], so
    whenever it is true [PY3K] is 1, and whenever [PY3K] is 0 it is
    false. *)
Theorem msvc2015_implies_py3k (self : Config) (py : Z) :
  self !! "CONDA_PY" = Some (VInt py) ->
  get_conda_py self = (self, inr (VInt py)) /\
  use_MSVC2015 self = (self, inr (VBool (35 <=? py))) /\
  (snd (use_MSVC2015 self) = inr (VBool true) ->
   snd (PY3K self) = inr (VInt 1)) /\
  (snd (PY3K self) = inr (VInt 0) ->
   snd (use_MSVC2015 self) = inr (VBool false)).
Proof.
  intros H.
  assert (Hm : use_MSVC2015 self = (self, inr (VBool (35 <=? py)))).
  { unfold use_MSVC2015, bind, getattr, lift, ret. now rewrite H. }
  rewrite Hm, (PY3K_run self py H). simpl.
  repeat split.
  - unfold get_conda_py, getattr. now rewrite H.
  - intros E. injection E as E. apply Z.leb_le in E.
    destruct (Z.leb_spec 30 py); [reflexivity | lia].
  - intros E. destruct (Z.leb_spec 30 py); [discriminate |].
    destruct (Z.leb_spec 35 py); [lia | reflexivity].
Qed.

Lemma msvc2015_implies_py3k_witness :
  fst (Config_init posix_world ∅) !! "CONDA_PY" = Some (VInt 35) /\
  use_MSVC2015 (fst (Config_init posix_world ∅))
  = (fst (Config_init posix_world ∅), inr (VBool (35 <=? 35))).
Proof.
  assert (H : fst (Config_init posix_world ∅) !! "CONDA_PY" = Some (VInt 35))
    by (vm_compute; reflexivity).
  split; [exact H |].
  exact (proj1 (proj2 (msvc2015_implies_py3k _ 35 H))).
Defined.

(** ** More on the cache root *)



Lemma croot_subdir_run (w w' : World) (self self' : Config) (c name : string)
      (access : World -> M string) :
  (forall w0, access w0 = (c0 <- croot w0 ;; path_join c0 (VStr name))) ->
  croot w self = (self', inr (VStr c)) ->
  access w' self' = (self', inr (join c name)).
Proof.
  intros Hdef Hc. rewrite Hdef. unfold bind.
  now rewrite (croot_cached w w' self self' (VStr c) Hc).
Qed.

(** X9.  Once an access to [croot] has returned the string [c], the
    broken directory, the four source caches and both package
    directories are the paths of their names under [c] on every later
    access, whatever the build path variable, the rc setting, the home
    directory or the install root have become by then; only the platform
    subdirectory is read anew. *)
Theorem caches_fixed_once_resolved (w : World) (self self' : Config)
        (c : string) :
  croot w self = (self', inr (VStr c)) ->
  forall w' : World,
    broken_dir w' self' = (self', inr (join c "broken")) /\
    src_cache w' self' = (self', inr (join c "src_cache")) /\
    git_cache w' self' = (self', inr (join c "git_cache")) /\
    hg_cache w' self' = (self', inr (join c "hg_cache")) /\
    svn_cache w' self' = (self', inr (join c "svn_cache")) /\
    bldpkgs_dirs w' self'
    = (self', inr (join c (cc_subdir w'), join c "noarch")).
Proof.
  intros Hc w'.
  pose proof (croot_cached w w' self self' (VStr c) Hc) as Hc'.
  repeat split;
    try (apply (croot_subdir_run w w' self self' c _ _ (fun _ => eq_refl) Hc)).
  unfold bldpkgs_dirs, bind. rewrite Hc'. simpl. now rewrite Hc'.
Qed.

Lemma caches_fixed_once_resolved_witness :
  croot posix_world (fst (Config_init posix_world ∅))
  = (<["_croot" := VStr "/home/u/conda-bld"]>
       (fst (Config_init posix_world ∅)),
     inr (VStr "/home/u/conda-bld")) /\
  src_cache
    {| environ := {[ "CONDA_BLD_PATH" := "/elsewhere" ]};
       getcwd := "/work"; pw_dir := "/home/v"; pw_nam := fun _ => None;
       version_info := (3, 5)%nat; cc_rc_root_dir := Some "/rc";
       cc_root_writable := true; cc_root_dir := "/opt/conda";
       cc_subdir := "linux-64"; cc_binstar_upload := VBool false |}
    (<["_croot" := VStr "/home/u/conda-bld"]>
       (fst (Config_init posix_world ∅)))
  = (<["_croot" := VStr "/home/u/conda-bld"]>
       (fst (Config_init posix_world ∅)),
     inr (join "/home/u/conda-bld" "src_cache")).
Proof.
  assert (Hc : croot posix_world (fst (Config_init posix_world ∅))
               = (<["_croot" := VStr "/home/u/conda-bld"]>
                    (fst (Config_init posix_world ∅)),
                  inr (VStr "/home/u/conda-bld"))).
  { rewrite (croot_run posix_world _ VNone) by (vm_compute; reflexivity).
    reflexivity. }
  split; [exact Hc |].
  exact (proj1 (proj2 (caches_fixed_once_resolved posix_world _ _ _ Hc _))).
Defined.

(** ** The build prefix of an object *)

Lemma endswith_append (s t : string) (c : ascii) :
  t <> "" -> pystr.endswith (s +:+ t) c = pystr.endswith t c.
Proof.
  intros Ht. induction s as [|a s IH]; [reflexivity |].
  rewrite append_cons. simpl.
  destruct (s +:+ t) eqn:E; [| exact IH].
  exfalso. now apply (append_nonempty_r s t Ht).
Qed.

Lemma all_append (p : ascii -> bool) (s t : string) :
  pystr.all p (s +:+ t) = pystr.all p s && pystr.all p t.
Proof.
  induction s as [|a s IH]; [reflexivity |].
  rewrite append_cons. simpl. now rewrite IH, andb_assoc.
Qed.

Lemma all_repeat (p : ascii -> bool) (n : nat) (s : string) :
  pystr.all p s = true -> pystr.all p (pystr.repeat n s) = true.
Proof.
  intros Hs. induction n as [|n IH]; [reflexivity |].
  change (pystr.repeat (S n) s) with (s +:+ pystr.repeat n s).
  now rewrite all_append, Hs, IH.
Qed.

Lemma all_take (p : ascii -> bool) (k : nat) (s : string) :
  pystr.all p s = true -> pystr.all p (pystr.take k s) = true.
Proof.
  revert s; induction k as [|k IH]; intros [|a s]; simpl; auto.
  intros H. apply andb_true_iff in H as [Ha Hs]. now rewrite Ha, IH.
Qed.

Lemma endswith_absent (c : ascii) (s : string) :
  pystr.all (fun x => negb (Ascii.eqb x c)) s = true ->
  pystr.endswith s c = false.
Proof.
  induction s as [|a s IH]; simpl; [reflexivity |].
  intros H. apply andb_true_iff in H as [Ha Hs].
  destruct s; [now apply negb_true_iff in Ha | now apply IH].
Qed.

(** The path never ends with a separator when the stub does not. *)
Lemma placeholder_path_no_trailing_sep (stub : string) (L : Z) :
  stub <> "" -> pystr.endswith stub "/" = false ->
  placeholder_path stub L <> "" /\
  pystr.endswith (placeholder_path stub L) "/" = false.
Proof.
  intros Hne Hend.
  destruct (placeholder_path_shape stub L) as (n & k & ->).
  split.
  - intros E. apply (f_equal String.length) in E.
    rewrite length_append in E. destruct stub; [congruence | simpl in E; lia].
  - destruct (pystr.take k (pystr.repeat n "_placehold")) as [|a t] eqn:E.
    + now rewrite append_empty_r.
    + rewrite endswith_append by discriminate. rewrite <- E.
      apply endswith_absent, all_take, all_repeat. reflexivity.
Qed.

Lemma build_env_stub (folder : string) :
  join folder "_build_env" <> "" /\
  pystr.endswith (join folder "_build_env") "/" = false.
Proof.
  unfold posixpath.join. simpl.
  destruct (String.eqb folder "" || pystr.endswith folder "/").
  - split; [apply append_nonempty_r; discriminate |].
    now rewrite endswith_append by discriminate.
  - split; [apply append_nonempty_r; discriminate |].
    now rewrite endswith_append by discriminate.
Qed.

Lemma placeholder_path_long (stub : string) (L : Z) :
  0 <= L -> L <= pystr.len stub -> placeholder_path stub L = stub.
Proof.
  intros H0 Hge. unfold placeholder_path, pystr.len in *.
  unfold pystr.slice_to.
  replace (0 <=? L) with true by (symmetry; apply Z.leb_le; lia).
  rewrite take_append_le by lia.
  unfold pystr.max. now rewrite ltb_take.
Qed.

(** X10.  On an object whose croot resolves to a string and whose build
    id is a string and prefix length an integer, [build_prefix] returns
    a path that starts with the stub [<build folder>/_build_env], is
    continued by the token only, and is exactly as long as the prefix
    length when the stub is shorter; the path never ends with a
    separator, so [info_dir] and [meta_dir] are that path followed by
    [/info] and [/conda-meta]. *)
Theorem build_prefix_of_object (w : World) (self self' : Config)
        (c b : string) (L : Z) :
  croot w self = (self', inr (VStr c)) ->
  self !! "_build_id" = Some (VStr b) ->
  self !! "_prefix_length" = Some (VInt L) ->
  exists path : string,
    build_prefix w self = (self', inr path) /\
    (exists n k : nat,
        path = join (join c b) "_build_env"
               +:+ pystr.take k (pystr.repeat n "_placehold")) /\
    (pystr.len (join (join c b) "_build_env") < L -> pystr.len path = L) /\
    (0 <= L <= pystr.len (join (join c b) "_build_env") ->
     path = join (join c b) "_build_env") /\
    info_dir w self = (self', inr (path +:+ "/info")) /\
    meta_dir w self = (self', inr (path +:+ "/conda-meta")).
Proof.
  intros Hc Hb Hl.
  pose proof (build_folder_run w self self' c b Hc Hb) as Hf.
  assert (Hl' : self' !! "_prefix_length" = Some (VInt L)).
  { replace self' with (fst (croot w self)) by now rewrite Hc.
    now rewrite croot_frame by discriminate. }
  pose proof (build_prefix_run w self self' (join c b) L Hf Hl') as Hp.
  destruct (build_env_stub (join c b)) as [Hne Hend].
  destruct (placeholder_path_no_trailing_sep _ L Hne Hend) as [Hpne Hpend].
  exists (placeholder_path (join (join c b) "_build_env") L).
  split; [exact Hp |].
  split; [apply placeholder_path_shape |].
  split; [intros Hlt; now apply placeholder_path_padded |].
  split; [intros [H0 Hge]; now apply placeholder_path_long |].
  split.
  - unfold info_dir, bind. rewrite Hp. unfold ret.
    now rewrite join_plain.
  - unfold meta_dir, bind. rewrite Hp. unfold ret.
    now rewrite join_plain.
Qed.

Lemma build_prefix_of_object_witness :
  exists path : string,
    build_prefix posix_world
      (fst (Config_init posix_world
              {[ "croot" := VStr "/tmp/bld";
                 "build_id" := VStr "foo-1.0-123456" ]}))
    = (fst (Config_init posix_world
              {[ "croot" := VStr "/tmp/bld";
                 "build_id" := VStr "foo-1.0-123456" ]}), inr path) /\
    pystr.len path = 80.
Proof.
  assert (Hc : croot posix_world
                 (fst (Config_init posix_world
                         {[ "croot" := VStr "/tmp/bld";
                            "build_id" := VStr "foo-1.0-123456" ]}))
               = (fst (Config_init posix_world
                         {[ "croot" := VStr "/tmp/bld";
                            "build_id" := VStr "foo-1.0-123456" ]}),
                  inr (VStr "/tmp/bld"))).
  { rewrite (croot_run posix_world _ (VStr "/tmp/bld"))
      by (vm_compute; reflexivity).
    reflexivity. }
  destruct (build_prefix_of_object posix_world _ _ "/tmp/bld"
              "foo-1.0-123456" 80 Hc)
    as (path & Hp & _ & Hlen & _);
    [vm_compute; reflexivity | vm_compute; reflexivity |].
  exists path. split; [exact Hp |]. apply Hlen. vm_compute. reflexivity.
Defined.

(** ** Interpreter binaries *)

(** X11.  When the lua override is absent or a non-empty string,
    [CONDA_LUA] is a non-empty string after [set_keys] (the override,
    else a non-empty [CONDA_LUA] variable, else 5.2), so [_get_lua] does
    not raise on any platform, and it names luajit exactly when that
    string starts with the character 2. *)
Theorem lua_binary_choice (w : World) (kwargs : Kwargs) (self : Config) :
  (kwargs !! "lua" = None \/
   exists (c : ascii) (rest : string),
     kwargs !! "lua" = Some (VStr (String c rest))) ->
  exists (c : ascii) (rest : string),
    fst (set_keys w kwargs self) !! "CONDA_LUA" = Some (VStr (String c rest))
    /\ forall (p : Platform) (prefix : string),
         _get_lua p prefix (fst (set_keys w kwargs self))
         = inr (if is_win32 p
                then ntpath_join p prefix
                       ((if Ascii.eqb c "2" then "luajit" else "lua")
                        +:+ ".exe")
                else join prefix
                       ("bin/" +:+ (if Ascii.eqb c "2" then "luajit"
                                    else "lua"))).
Proof.
  intros Hk.
  destruct (set_keys_plain_versions w kwargs self) as (_ & Hl & _).
  rewrite env_resolution in Hl.
  assert (Hres : exists (c : ascii) (rest : string),
             version_resolution (kwargs !! "lua")
               (environ w !! env_var "lua") "5.2" = VStr (String c rest)).
  { assert (Hfb : exists (c : ascii) (rest : string),
               match environ w !! env_var "lua" with
               | Some s => if String.eqb s "" then VStr "5.2" else VStr s
               | None => VStr "5.2"
               end = VStr (String c rest)).
    { destruct (environ w !! env_var "lua") as [[|c rest]|]; simpl; eauto. }
    unfold version_resolution.
    destruct Hk as [-> | (c & rest & ->)]; [exact Hfb |].
    simpl. eauto. }
  destruct Hres as (c & rest & Hres). rewrite Hres in Hl.
  exists c, rest. split; [exact Hl |].
  intros p prefix. unfold _get_lua. rewrite Hl.
  cbn [subscript0 equals_two].
  assert (Heq : String.eqb "2" (String c "") = Ascii.eqb c "2").
  { change (String.eqb "2" (String c ""))
      with (if Ascii.eqb "2" c then String.eqb "" "" else false).
    rewrite (Ascii.eqb_sym "2" c). now destruct (Ascii.eqb c "2"). }
  rewrite Heq.
  destruct (is_win32 p), (Ascii.eqb c "2"); reflexivity.
Qed.

Lemma lua_binary_choice_witness :
  (({[ "lua" := VStr "2.0.4" ]} : Kwargs) !! "lua" = None \/
   exists (c : ascii) (rest : string),
     ({[ "lua" := VStr "2.0.4" ]} : Kwargs) !! "lua"
     = Some (VStr (String c rest))) /\
  exists (c : ascii) (rest : string),
    fst (set_keys posix_world {[ "lua" := VStr "2.0.4" ]} ∅) !! "CONDA_LUA"
    = Some (VStr (String c rest)).
Proof.
  assert (H : ({[ "lua" := VStr "2.0.4" ]} : Kwargs) !! "lua" = None \/
              exists (c : ascii) (rest : string),
                ({[ "lua" := VStr "2.0.4" ]} : Kwargs) !! "lua"
                = Some (VStr (String c rest))).
  { right. exists "2"%char, ".0.4". vm_compute. reflexivity. }
  split; [exact H |].
  destruct (lua_binary_choice posix_world {[ "lua" := VStr "2.0.4" ]} ∅ H)
    as (c & rest & Hl & _).
  exists c, rest. exact Hl.
Defined.

(** An empty string wrapped in a list reaches [CONDA_LUA] as the empty
    string, and indexing it raises. *)
Example lua_empty_version_raises :
  forall (p : Platform) (prefix : string),
    _get_lua p prefix
      (fst (Config_init posix_world {[ "lua" := VList [VStr ""] ]}))
    = inl IndexError.
Proof. intros p prefix. vm_compute. reflexivity. Qed.

Lemma before_dash_name (name pkg : string) :
  pystr.any (fun c => Ascii.eqb c "-") name = false ->
  before_dash pkg = name <->
  pkg = name \/ exists rest : string, pkg = name +:+ String "-" rest.
Proof.
  revert pkg; induction name as [|a name IH]; intros pkg Hname.
  - destruct pkg as [|c rest]; simpl.
    + split; [now left | reflexivity].
    + destruct (Ascii.eqb_spec c "-") as [-> | Hc].
      * split; [intros _; right; now exists rest | reflexivity].
      * split; [discriminate |].
        intros [H | [r H]]; [discriminate |].
        rewrite append_empty_l in H. congruence.
  - simpl in Hname. apply orb_false_iff in Hname as [Ha Hname].
    destruct pkg as [|c rest]; simpl.
    + split; [discriminate |].
      intros [H | [r H]]; [discriminate |].
      rewrite append_cons in H. discriminate.
    + destruct (Ascii.eqb_spec c "-") as [-> | Hc].
      * split; [discriminate |].
        intros [H | [r H]]; [| rewrite append_cons in H];
          injection H as <- _; now rewrite Ascii.eqb_refl in Ha.
      * split.
        -- intros H. injection H as -> H.
           apply (IH rest Hname) in H as [-> | [r ->]];
             [now left | right; now exists r].
        -- intros [H | [r H]]; [| rewrite append_cons in H];
             injection H as -> H; f_equal; apply (IH rest Hname);
             [now left | right; now exists r].
Qed.

(** X12.  On win32 [_get_python] names [python_d.exe] exactly when one
    of the packages linked into the prefix is called [debug] or begins
    with [debug-], and [python.exe] otherwise; on every other platform
    it is [bin/python] under the prefix whatever is linked, and
    [_get_perl] never looks at the packages. *)
Theorem debug_interpreter (p : Platform) (prefix : string) :
  (is_win32 p = true ->
   ((exists pkg : string,
        In pkg (linked p prefix) /\
        (pkg = "debug" \/ exists rest : string, pkg = "debug-" +:+ rest)) ->
    _get_python p prefix = ntpath_join p prefix "python_d.exe") /\
   (~ (exists pkg : string,
          In pkg (linked p prefix) /\
          (pkg = "debug" \/ exists rest : string, pkg = "debug-" +:+ rest)) ->
    _get_python p prefix = ntpath_join p prefix "python.exe") /\
   _get_perl p prefix = ntpath_join p prefix "perl.exe") /\
  (is_win32 p = false ->
   _get_python p prefix = join prefix "bin/python" /\
   _get_perl p prefix = join prefix "bin/perl").
Proof.
  assert (Hdbg : forall pkg : string,
             String.eqb "debug" (before_dash pkg) = true <->
             (pkg = "debug" \/
              exists rest : string, pkg = "debug-" +:+ rest)).
  { intros pkg. rewrite String.eqb_eq.
    rewrite <- (before_dash_name "debug" pkg eq_refl).
    split; intros H; now symmetry. }
  split.
  - intros Hw. unfold _get_python, _get_perl. rewrite Hw.
    repeat split.
    + intros (pkg & Hin & Hpkg).
      assert (He : existsb (String.eqb "debug")
                     (map before_dash (linked p prefix)) = true).
      { apply existsb_exists. exists (before_dash pkg). split.
        - now apply in_map.
        - now apply Hdbg. }
      now rewrite He.
    + intros Hno.
      destruct (existsb (String.eqb "debug")
                  (map before_dash (linked p prefix))) eqn:He;
        [| reflexivity].
      exfalso. apply Hno. apply existsb_exists in He as (name & Hin & Hn).
      apply in_map_iff in Hin as (pkg & <- & Hin).
      exists pkg. split; [exact Hin | now apply Hdbg].
  - intros Hw. unfold _get_python, _get_perl. now rewrite Hw.
Qed.

Lemma debug_interpreter_witness :
  is_win32 {| sys_platform := "win32";
              linked := fun _ => [ "python-3.5.1-0"; "debug-1.0-0" ];
              ntpath_join := fun a b => a +:+ "\" +:+ b |} = true /\
  _get_python {| sys_platform := "win32";
                 linked := fun _ => [ "python-3.5.1-0"; "debug-1.0-0" ];
                 ntpath_join := fun a b => a +:+ "\" +:+ b |} "C:\env"
  = "C:\env\python_d.exe".
Proof.
  split; [reflexivity |].
  refine (proj1 (proj1 (debug_interpreter
            {| sys_platform := "win32";
               linked := fun _ => [ "python-3.5.1-0"; "debug-1.0-0" ];
               ntpath_join := fun a b => a +:+ "\" +:+ b |} "C:\env")
            eq_refl) _).
  exists "debug-1.0-0". split; [simpl; tauto |].
  right. now exists "1.0-0".
Defined.

Example debugger_is_not_debug :
  _get_python {| sys_platform := "win32";
                 linked := fun _ => [ "debugger-1.0-0"; "python-debug-2-0" ];
                 ntpath_join := fun a b => a +:+ "\" +:+ b |} "C:\env"
  = "C:\env\python.exe".
Proof. reflexivity. Qed.

Lemma join_name_shape (folder name : string) :
  name <> "" -> pystr.startswith name "/" = false ->
  pystr.endswith name "/" = false ->
  join folder name <> "" /\ pystr.endswith (join folder name) "/" = false.
Proof.
  intros Hne Hs He. unfold posixpath.join. rewrite Hs.
  destruct (String.eqb folder "" || pystr.endswith folder "/").
  - split; [now apply append_nonempty_r |]. now rewrite endswith_append.
  - split; [apply append_nonempty_r; discriminate |].
    rewrite endswith_append by discriminate.
    change ("/" +:+ name) with (String "/" name). simpl.
    destruct name; [congruence | exact He].
Qed.

Lemma get_lua_posix (p : Platform) (prefix : string) (self : Config)
      (ch : ascii) (rest : string) :
  is_win32 p = false ->
  self !! "CONDA_LUA" = Some (VStr (String ch rest)) ->
  _get_lua p prefix self
  = inr (join prefix
           ("bin/" +:+ (if Ascii.eqb ch "2" then "luajit" else "lua"))).
Proof.
  intros Hw Hl. unfold _get_lua. rewrite Hl, Hw.
  cbn [subscript0 equals_two].
  change (String.eqb "2" (String ch ""))
    with (if Ascii.eqb "2" ch then String.eqb "" "" else false).
  rewrite (Ascii.eqb_sym "2" ch). now destruct (Ascii.eqb ch "2").
Qed.

(** X13.  On a platform other than win32, for an object whose croot
    resolves to a string and whose build id is a string and prefix
    length an integer, the build interpreters are the build prefix
    followed by [/bin/python], [/bin/perl] and [/bin/lua] or
    [/bin/luajit], and the test interpreters are the same names under
    the unpadded [<build folder>/_test_env]; every one of these accesses
    leaves the object as the croot access leaves it. *)
Theorem interpreter_paths_posix (w : World) (p : Platform)
        (self self' : Config) (c b : string) (L : Z) :
  is_win32 p = false ->
  croot w self = (self', inr (VStr c)) ->
  self !! "_build_id" = Some (VStr b) ->
  self !! "_prefix_length" = Some (VInt L) ->
  exists path : string,
    build_prefix w self = (self', inr path) /\
    test_prefix w self = (self', inr (join (join c b) "_test_env")) /\
    build_python w p self = (self', inr (path +:+ "/bin/python")) /\
    build_perl w p self = (self', inr (path +:+ "/bin/perl")) /\
    test_python w p self
    = (self', inr (join (join c b) "_test_env" +:+ "/bin/python")) /\
    test_perl w p self
    = (self', inr (join (join c b) "_test_env" +:+ "/bin/perl")) /\
    (forall (ch : ascii) (rest : string),
        self !! "CONDA_LUA" = Some (VStr (String ch rest)) ->
        build_lua w p self
        = (self', inr (path +:+ "/bin/"
                       +:+ (if Ascii.eqb ch "2" then "luajit" else "lua")))
        /\ test_lua w p self
           = (self', inr (join (join c b) "_test_env" +:+ "/bin/"
                          +:+ (if Ascii.eqb ch "2" then "luajit"
                               else "lua")))).
Proof.
  intros Hw Hc Hb Hl.
  pose proof (build_folder_run w self self' c b Hc Hb) as Hf.
  assert (Hl' : self' !! "_prefix_length" = Some (VInt L)).
  { replace self' with (fst (croot w self)) by now rewrite Hc.
    now rewrite croot_frame by discriminate. }
  pose proof (build_prefix_run w self self' (join c b) L Hf Hl') as Hp.
  destruct (build_env_stub (join c b)) as [Hne Hend].
  destruct (placeholder_path_no_trailing_sep _ L Hne Hend) as [Hpne Hpend].
  destruct (join_name_shape (join c b) "_test_env") as [Htne Htend];
    [discriminate | reflexivity | reflexivity |].
  assert (Ht : test_prefix w self
               = (self', inr (join (join c b) "_test_env"))).
  { unfold test_prefix, bind. now rewrite Hf. }
  exists (placeholder_path (join (join c b) "_build_env") L).
  split; [exact Hp | split; [exact Ht |]].
  repeat split.
  - unfold build_python, bind, _get_python. rewrite Hp, Hw. unfold ret.
    now rewrite join_plain.
  - unfold build_perl, bind, _get_perl. rewrite Hp, Hw. unfold ret.
    now rewrite join_plain.
  - unfold test_python, bind, _get_python. rewrite Ht, Hw. unfold ret.
    now rewrite join_plain.
  - unfold test_perl, bind, _get_perl. rewrite Ht, Hw. unfold ret.
    now rewrite join_plain.
  - assert (Hlua : self' !! "CONDA_LUA" = Some (VStr (String ch rest))).
    { replace self' with (fst (croot w self)) by now rewrite Hc.
      now rewrite croot_frame by discriminate. }
    unfold build_lua. rewrite Hp.
    rewrite (get_lua_posix p _ self' ch rest Hw Hlua).
    rewrite join_plain by (assumption || now destruct (Ascii.eqb ch "2")).
    reflexivity.
  - assert (Hlua : self' !! "CONDA_LUA" = Some (VStr (String ch rest))).
    { replace self' with (fst (croot w self)) by now rewrite Hc.
      now rewrite croot_frame by discriminate. }
    unfold test_lua. rewrite Ht.
    rewrite (get_lua_posix p _ self' ch rest Hw Hlua).
    rewrite join_plain by (assumption || now destruct (Ascii.eqb ch "2")).
    reflexivity.
Qed.

Lemma interpreter_paths_posix_witness :
  exists path : string,
    build_prefix posix_world
      (fst (Config_init posix_world {[ "croot" := VStr "/tmp/bld" ]}))
    = (fst (Config_init posix_world {[ "croot" := VStr "/tmp/bld" ]}),
       inr path) /\
    test_python posix_world
      {| sys_platform := "linux2"; linked := fun _ => [];
         ntpath_join := fun a b => a +:+ "\" +:+ b |}
      (fst (Config_init posix_world {[ "croot" := VStr "/tmp/bld" ]}))
    = (fst (Config_init posix_world {[ "croot" := VStr "/tmp/bld" ]}),
       inr (join (join "/tmp/bld" "") "_test_env" +:+ "/bin/python")).
Proof.
  assert (Hc : croot posix_world
                 (fst (Config_init posix_world
                         {[ "croot" := VStr "/tmp/bld" ]}))
               = (fst (Config_init posix_world
                         {[ "croot" := VStr "/tmp/bld" ]}),
                  inr (VStr "/tmp/bld"))).
  { rewrite (croot_run posix_world _ (VStr "/tmp/bld"))
      by (vm_compute; reflexivity).
    reflexivity. }
  destruct (interpreter_paths_posix posix_world
              {| sys_platform := "linux2"; linked := fun _ => [];
                 ntpath_join := fun a b => a +:+ "\" +:+ b |}
              _ _ "/tmp/bld" "" 80 eq_refl Hc)
    as (path & Hp & _ & _ & _ & Htp & _);
    [vm_compute; reflexivity | vm_compute; reflexivity |].
  exists path. split; [exact Hp | exact Htp].
Defined.

(** ** Setters *)

(** What an access returned is what [_croot] holds, and it is truthy. *)
Lemma croot_result_stored (w : World) (self self' : Config) (v : pyval) :
  croot w self = (self', inr v) ->
  self' !! "_croot" = Some v /\ truthy v = true.
Proof.
  intros H. destruct (self !! "_croot") as [c|] eqn:E.
  - rewrite (croot_run w self c E) in H.
    destruct (truthy c) eqn:Ht; injection H as <- <-.
    + now split.
    + split; [apply lookup_insert_eq | apply croot_chain_truthy].
  - unfold croot, bind, getattr in H. rewrite E in H. discriminate.
Qed.

(** X14.  After croot has been resolved, assigning the build id and the
    prefix length through their setters is what the getters and the
    derived paths see next, while croot stays the resolved value: the
    build folder is the new build id under the same croot, whatever the
    environment has become. *)
Theorem setters_take_effect (w : World) (self self' : Config) (c : string) :
  croot w self = (self', inr (VStr c)) ->
  forall (w' : World) (b : string) (L : Z),
    let updated :=
      fst (set_prefix_length (VInt L) (fst (set_build_id (VStr b) self'))) in
    build_id updated = (updated, inr (VStr b)) /\
    prefix_length updated = (updated, inr (VInt L)) /\
    croot w' updated = (updated, inr (VStr c)) /\
    build_folder w' updated = (updated, inr (join c b)) /\
    build_prefix w' updated
    = (updated, inr (placeholder_path (join (join c b) "_build_env") L)).
Proof.
  intros Hc w' b L updated.
  destruct (croot_result_stored w self self' _ Hc) as [Hst Htr].
  assert (Hcroot : updated !! "_croot" = Some (VStr c)).
  { unfold updated, set_prefix_length, set_build_id, setattr. simpl.
    now rewrite !lookup_insert_ne by discriminate. }
  assert (Hb : updated !! "_build_id" = Some (VStr b)).
  { unfold updated, set_prefix_length, set_build_id, setattr. simpl.
    now rewrite lookup_insert_ne, lookup_insert_eq by discriminate. }
  assert (Hl : updated !! "_prefix_length" = Some (VInt L)).
  { unfold updated, set_prefix_length, set_build_id, setattr. simpl.
    apply lookup_insert_eq. }
  assert (Hcr : croot w' updated = (updated, inr (VStr c))).
  { rewrite (croot_run w' updated (VStr c) Hcroot). now rewrite Htr. }
  pose proof (build_folder_run w' updated updated c b Hcr Hb) as Hf.
  repeat split.
  - unfold build_id, getattr. now rewrite Hb.
  - unfold prefix_length, getattr. now rewrite Hl.
  - exact Hcr.
  - exact Hf.
  - exact (build_prefix_run w' updated updated (join c b) L Hf Hl).
Qed.

Lemma setters_take_effect_witness :
  croot posix_world (fst (Config_init posix_world ∅))
  = (<["_croot" := VStr "/home/u/conda-bld"]>
       (fst (Config_init posix_world ∅)),
     inr (VStr "/home/u/conda-bld")) /\
  build_id
    (fst (set_prefix_length (VInt 255)
            (fst (set_build_id (VStr "foo-1.0-123456")
                    (<["_croot" := VStr "/home/u/conda-bld"]>
                       (fst (Config_init posix_world ∅)))))))
  = (fst (set_prefix_length (VInt 255)
            (fst (set_build_id (VStr "foo-1.0-123456")
                    (<["_croot" := VStr "/home/u/conda-bld"]>
                       (fst (Config_init posix_world ∅)))))),
     inr (VStr "foo-1.0-123456")).
Proof.
  assert (Hc : croot posix_world (fst (Config_init posix_world ∅))
               = (<["_croot" := VStr "/home/u/conda-bld"]>
                    (fst (Config_init posix_world ∅)),
                  inr (VStr "/home/u/conda-bld"))).
  { rewrite (croot_run posix_world _ VNone) by (vm_compute; reflexivity).
    reflexivity. }
  split; [exact Hc |].
  exact (proj1 (setters_take_effect posix_world _ _ _ Hc posix_world
                  "foo-1.0-123456" 255)).
Defined.

(** ** Attributes a merge does not own *)

(** X15.  [set_keys] assigns twenty-two attributes and no other: any
    other attribute of the object, such as one a caller has added, is
    the same after the call, whether the call returns or raises. *)
Theorem set_keys_leaves_other_attributes (w : World) (kwargs : Kwargs)
        (self : Config) (name : string) :
  name ∉ [ "CONDA_PERL"; "CONDA_LUA"; "CONDA_R"; "CONDA_PY"; "CONDA_NPY";
           "_build_id"; "_prefix_length"; "_croot";
           "use_long_build_prefix";
           "activate"; "anaconda_upload"; "channel_urls"; "dirty";
           "include_recipe"; "keep_old_work"; "noarch";
           "no_download_source"; "override_channels"; "skip_existing";
           "token"; "user"; "verbose" ] ->
  fst (set_keys w kwargs self) !! name = self !! name.
Proof. intros Hn. now apply set_keys_frame. Qed.

Lemma set_keys_leaves_other_attributes_witness :
  fst (set_keys posix_world kwargs_build_id {[ "recipe" := VStr "r" ]})
    !! "recipe"
  = ({[ "recipe" := VStr "r" ]} : Config) !! "recipe".
Proof.
  apply (set_keys_leaves_other_attributes posix_world kwargs_build_id
           {[ "recipe" := VStr "r" ]} "recipe").
  apply not_elem_of_concrete. vm_compute. reflexivity.
Defined.
